(** * ezviz: credential cache and RPC dispatch of the Go client

    A shallow embedding of [src/util.go] (the expiring caches) and of the two
    variants of [src/goezviz.go] (the client, token refresh and HTTP
    dispatch), with the properties of the specification stated over it.

    Go values are modelled as follows.
    - [string] and [[]byte] are Rocq strings (sequences of 8-bit characters);
    - [int64] is [Z]; the only arithmetic of the program on it is the
      division [expireTime/1000], which truncates toward zero ([Z.quot]) and
      cannot overflow;
    - [error] is [option error], [None] being [nil];
    - [map[string][]string] ([url.Values], [http.Header]) is
      [gmap string (list string)], the [nil] map being [None];
    - the file system, the clock, the environment variables, the network and
      the byte sinks behind [io.Writer] values form the [World], which every
      effectful function receives and returns;
    - a run-time panic is an outcome of its own ([Panic]).

    The pointers of the program ([c], [c.HTTPClient], [c.Cache], the record
    passed to a cache) are taken to be valid.  What the program does to the
    standard error stream ([log.Printf]) and the closing of response bodies
    have no counterpart in the model. *)

From Stdlib Require Import ZArith String Ascii List Bool Lia.
From stdpp Require Import base strings gmap list.

Set Warnings "-register-all".

(** ** Strings and errors *)

(** The double quote character (code 34). *)
Definition dquote : ascii := Ascii false true false false false true false false.

(** [quoted s] is [s] between double quotes. *)
Definition quoted (s : string) : string := String dquote (s +:+ String dquote EmptyString).

Inductive error : Type :=
  | errors_New (msg : string).

Definition Error (e : error) : string :=
  match e with errors_New msg => msg end.

#[global] Instance error_eq_dec : EqDecision error.
Proof. solve_decision. Defined.

(** [fmt.Errorf("%s: %s", a, b)]. *)
Definition fmt_Errorf_s_s (a b : string) : error :=
  errors_New (a +:+ ": " +:+ b).

(** ** The world the program runs in *)

Record http_Request : Type := mk_Request {
  Method : string;
  URL : string;
  Header : gmap string (list string);
  Body : option string
}.

(** A response body is a stream: [content] is what can be read from it, and
    [read_error] the error that ends the stream instead of [io.EOF], if any. *)
Record io_ReadCloser : Type := mk_Body {
  content : string;
  read_error : option error
}.

Record http_Response : Type := mk_Response {
  StatusCode : Z;
  Status : string;
  RespHeader : gmap string (list string);
  RespBody : io_ReadCloser
}.

(** An [io.Writer] is a handle on a byte sink of the world. *)
Definition io_Writer : Type := nat.

Record World : Type := mk_World {
  files : gmap string string;           (* path to content *)
  write_protected : gset string;        (* paths that cannot be written *)
  unix_now : Z;                         (* [time.Now().Unix()] *)
  environ : gmap string string;         (* [os.Getenv] *)
  network : http_Request → http_Response * option error;
  requests : list http_Request;         (* requests sent so far, oldest first *)
  sinks : gmap io_Writer string
}.

Definition set_files (f : gmap string string) (w : World) : World :=
  mk_World f (write_protected w) (unix_now w) (environ w) (network w)
           (requests w) (sinks w).

Definition set_unix_now (t : Z) (w : World) : World :=
  mk_World (files w) (write_protected w) t (environ w) (network w)
           (requests w) (sinks w).

Definition set_requests (l : list http_Request) (w : World) : World :=
  mk_World (files w) (write_protected w) (unix_now w) (environ w) (network w)
           l (sinks w).

Definition set_sinks (s : gmap io_Writer string) (w : World) : World :=
  mk_World (files w) (write_protected w) (unix_now w) (environ w) (network w)
           (requests w) s.

(** A computation that reads and changes the world and cannot panic. *)
Definition IO (A : Type) : Type := World → A * World.

(** [ioutil.ReadFile]: the content of the file, or an error when there is no
    such file. *)
Definition ioutil_ReadFile (path : string) : IO (string * option error) :=
  λ w, match files w !! path with
       | Some bytes => ((bytes, None), w)
       | None =>
           ((EmptyString,
             Some (errors_New ("open " +:+ path +:+ ": no such file or directory"))), w)
       end.

(** [ioutil.WriteFile]: replaces the whole content of the file; fails, leaving
    the file system as it is, on a path that cannot be written. *)
Definition ioutil_WriteFile (path : string) (data : string) (perm : Z)
  : IO (option error) :=
  λ w, if decide (path ∈ write_protected w)
       then (Some (errors_New ("open " +:+ path +:+ ": permission denied")), w)
       else (None, set_files (<[path := data]> (files w)) w).

Definition time_Now_Unix (w : World) : Z := unix_now w.

(** [os.Getenv]: the empty string for a variable that is not set. *)
Definition os_Getenv (key : string) (w : World) : string :=
  default EmptyString (environ w !! key).

(** ** [encoding/json] as an interface

    The program serialises through [json.Marshal] and [json.Unmarshal], which
    work on any Go value by reflection.  A shape that can be encoded or
    decoded is an instance of the classes below; [json_Unmarshal bytes v]
    decodes into the existing value [v] and returns the value as the decoder
    leaves it, also when it reports an error. *)

Class json_Marshaler (T : Type) : Type :=
  json_Marshal : T → string * option error.

Class json_Unmarshaler (T : Type) : Type :=
  json_Unmarshal : string → T → T * option error.

(** ** util.go *)

Class Expirable (T : Type) : Type :=
  GetExpireTime : T → Z.

(** The [Cache] interface.  Both methods work on the world; the state of the
    cache object itself (the buffer of an [InMemoryCache]) is returned by
    [Cache_Set].  A cache does not use the HTTP transport of the client. *)
Class Cache (T C : Type) : Type := {
  Cache_Set : C → T → IO (option error * C);
  Cache_Get : C → T → IO (option error * T);
  Cache_Set_requests c d w : requests (Cache_Set c d w).2 = requests w;
  Cache_Get_requests c d w : requests (Cache_Get c d w).2 = requests w
}.

Record FileCache : Type := mk_FileCache { Path : string }.

Definition NewFileCache (path : string) : FileCache :=
  {| Path := path |}.

Record InMemoryCache : Type := mk_InMemoryCache { data : string }.

Definition NewInMemoryCache : InMemoryCache :=
  {| data := EmptyString |}.

Definition err_expired : error := errors_New "Data is already expired".

Section caches.
Context {T : Type} `{!Expirable T, !json_Marshaler T, !json_Unmarshaler T}.

Definition FileCache_Set (c : FileCache) (d : T) : IO (option error) :=
  λ w,
    let '(bytes, err) := json_Marshal d in
    match err with
    | None =>
        let '(_, w) := ioutil_WriteFile (Path c) bytes 420 w in
        (err, w)
    | Some _ => (err, w)
    end.

Definition FileCache_Get (c : FileCache) (d : T) : IO (option error * T) :=
  λ w,
    let '((bytes, err), w) := ioutil_ReadFile (Path c) w in
    match err with
    | None =>
        let '(d, err) := json_Unmarshal bytes d in
        match err with
        | None =>
            let expireTime := GetExpireTime d in
            if (time_Now_Unix w >? expireTime `quot` 1000)%Z
            then ((Some err_expired, d), w)
            else ((err, d), w)
        | Some _ => ((err, d), w)
        end
    | Some _ => ((err, d), w)
    end.

Definition InMemoryCache_Set (c : InMemoryCache) (d : T)
  : IO (option error * InMemoryCache) :=
  λ w,
    let '(bytes, err) := json_Marshal d in
    match err with
    | None => ((err, {| data := bytes |}), w)
    | Some _ => ((err, c), w)
    end.

Definition InMemoryCache_Get (c : InMemoryCache) (d : T) : IO (option error * T) :=
  λ w,
    let '(d, err) := json_Unmarshal (data c) d in
    match err with
    | None =>
        let expireTime := GetExpireTime d in
        if (time_Now_Unix w >? expireTime `quot` 1000)%Z
        then ((Some err_expired, d), w)
        else ((err, d), w)
    | Some _ => ((err, d), w)
    end.

#[export] Instance FileCache_Cache : Cache T FileCache.
Proof.
  refine {| Cache_Set c d w := let '(err, w) := FileCache_Set c d w in ((err, c), w);
            Cache_Get := FileCache_Get |}.
  - intros c d w. unfold FileCache_Set, ioutil_WriteFile.
    destruct (json_Marshal d) as [bytes [e|]]; [done|].
    by case_decide.
  - intros c d w. unfold FileCache_Get, ioutil_ReadFile.
    destruct (files w !! Path c) as [bytes|]; [|done].
    destruct (json_Unmarshal bytes d) as [d' [e|]]; [done|].
    by case_match.
Defined.

#[export] Instance InMemoryCache_Cache : Cache T InMemoryCache.
Proof.
  refine {| Cache_Set := InMemoryCache_Set; Cache_Get := InMemoryCache_Get |}.
  - intros c d w. unfold InMemoryCache_Set.
    by destruct (json_Marshal d) as [bytes [e|]].
  - intros c d w. unfold InMemoryCache_Get.
    destruct (json_Unmarshal (data c) d) as [d' [e|]]; [done|].
    by case_match.
Defined.

End caches.

(** ** [net/url]: query parameters *)

Definition url_Values : Type := option (gmap string (list string)).

(** [Values.Get]: the first value of the key, or the empty string. *)
Definition url_Values_Get (v : url_Values) (key : string) : string :=
  match v with
  | None => EmptyString
  | Some m =>
      match m !! key with
      | Some (x :: _) => x
      | _ => EmptyString
      end
  end.

(** [Values.Set] on a map that is not [nil]: the key gets the one value. *)
Definition url_Values_Set (m : gmap string (list string)) (key value : string)
  : gmap string (list string) :=
  <[key := [value]]> m.

Definition upperhex (n : N) : ascii :=
  nth (N.to_nat n) (list_ascii_of_string "0123456789ABCDEF") "0"%char.

(** [shouldEscape] in the mode of a query component: everything but the
    unreserved characters is escaped. *)
Definition shouldEscape (c : ascii) : bool :=
  let n := N_of_ascii c in
  negb (((97 <=? n) && (n <=? 122)) || ((65 <=? n) && (n <=? 90))
        || ((48 <=? n) && (n <=? 57))
        || (n =? 45) || (n =? 95) || (n =? 46) || (n =? 126))%N.

Fixpoint url_QueryEscape (s : string) : string :=
  match s with
  | EmptyString => EmptyString
  | String c r =>
      if Ascii.eqb c " " then String "+" (url_QueryEscape r)
      else if shouldEscape c then
        String "%" (String (upperhex (N_of_ascii c / 16))
                      (String (upperhex (N_of_ascii c mod 16)) (url_QueryEscape r)))
      else String c (url_QueryEscape r)
  end.

Fixpoint insert_sorted (k : string) (l : list string) : list string :=
  match l with
  | [] => [k]
  | x :: r => if String.leb k x then k :: l else x :: insert_sorted k r
  end.

(** The keys of a Go map in increasing (byte-wise) order. *)
Definition sorted_keys {V : Type} (m : gmap string V) : list string :=
  foldr insert_sorted [] (map fst (map_to_list m)).

Fixpoint join_amp (l : list string) : string :=
  match l with
  | [] => EmptyString
  | [x] => x
  | x :: r => x +:+ "&" +:+ join_amp r
  end.

(** [Values.Encode]: [k=v] pairs, escaped, joined by ampersands, by
    increasing key. *)
Definition url_Values_Encode (v : url_Values) : string :=
  match v with
  | None => EmptyString
  | Some m =>
      join_amp
        (flat_map (λ k, map (λ x, url_QueryEscape k +:+ "=" +:+ url_QueryEscape x)
                            (default [] (m !! k)))
                  (sorted_keys m))
  end.

(** ** [net/http] and [io] *)

Record http_Client : Type := mk_Client { Timeout : Z }.

Definition time_Second : Z := 1000000000.

(** [Header.Get] for a key in canonical form. *)
Definition http_Header_Get (h : gmap string (list string)) (key : string) : string :=
  match h !! key with
  | Some (x :: _) => x
  | _ => EmptyString
  end.

(** Computations that may panic. *)
Inductive outcome (A : Type) : Type :=
  | Ret (a : A)
  | Panic (msg : string).
Arguments Ret {A} a.
Arguments Panic {A} msg.

Definition M (A : Type) : Type := World → outcome A * World.

#[global] Instance M_ret : MRet M := λ A a w, (Ret a, w).

#[global] Instance M_bind : MBind M := λ A B f m w,
  match m w with
  | (Ret a, w) => f a w
  | (Panic msg, w) => (Panic msg, w)
  end.

Definition lift {A : Type} (m : IO A) : M A :=
  λ w, let '(a, w) := m w in (Ret a, w).

(** [Client.Do]: one exchange with the network, which is recorded. *)
Definition http_Client_Do (client : http_Client) (request : http_Request)
  : IO (http_Response * option error) :=
  λ w, (network w request, set_requests (requests w ++ [request]) w).

(** [ioutil.ReadAll]: everything read before the stream ended, and the error
    that ended it. *)
Definition ioutil_ReadAll (r : io_ReadCloser) : string * option error :=
  (content r, read_error r).

Definition nil_dereference : string :=
  "runtime error: invalid memory address or nil pointer dereference".

(** [io.Copy]: the bytes read from [src] are written to [dst] as they come.
    On a [nil] destination the first write panics; nothing is written, and
    nothing panics, when the source yields no byte. *)
Definition io_Copy (dst : option io_Writer) (src : io_ReadCloser)
  : M (Z * option error) :=
  λ w,
    match dst with
    | Some h =>
        (Ret (Z.of_nat (String.length (content src)), read_error src),
         set_sinks (<[h := default EmptyString (sinks w !! h) +:+ content src]> (sinks w)) w)
    | None =>
        if decide (content src = EmptyString)
        then (Ret (0%Z, read_error src), w)
        else (Panic nil_dereference, w)
    end.

(** ** Declarations shared by both variants of goezviz.go *)

Definition VERSION : string := "0.1".
Definition typeJSON : string := "application/json".

Record EzvizClient (C : Type) : Type := mk_EzvizClient {
  AppKey : string;
  AppSecret : string;
  EzvizClient_AccessToken : string;
  HTTPClient : http_Client;
  EzvizClient_Cache : C
}.
Arguments mk_EzvizClient {C} _ _ _ _ _.
Arguments AppKey {C} _.
Arguments AppSecret {C} _.
Arguments EzvizClient_AccessToken {C} _.
Arguments HTTPClient {C} _.
Arguments EzvizClient_Cache {C} _.

(** [c.AccessToken = token] *)
Definition set_AccessToken {C : Type} (token : string) (c : EzvizClient C) : EzvizClient C :=
  mk_EzvizClient (AppKey c) (AppSecret c) token (HTTPClient c) (EzvizClient_Cache c).

(** the cache object of [c] after a call of one of its methods *)
Definition set_Cache {C : Type} (cache : C) (c : EzvizClient C) : EzvizClient C :=
  mk_EzvizClient (AppKey c) (AppSecret c) (EzvizClient_AccessToken c) (HTTPClient c) cache.

Class Unmarshallable (R : Type) : Type := {
  checkError : R → option error;
  getWriter : R → option io_Writer
}.

Record OAPIResponse : Type := mk_OAPIResponse {
  Code : string;
  Msg : string
}.

Definition OAPIResponse_checkError (data : OAPIResponse) : option error :=
  let err := None in
  if decide (Code data ≠ "200")
  then Some (fmt_Errorf_s_s (Code data) (Msg data))
  else err.

Definition OAPIResponse_getWriter (data : OAPIResponse) : option io_Writer :=
  None.

#[global] Instance OAPIResponse_Unmarshallable : Unmarshallable OAPIResponse :=
  {| checkError := OAPIResponse_checkError; getWriter := OAPIResponse_getWriter |}.

Record AccessToken : Type := mk_AccessToken {
  AccessToken_AccessToken : string;
  ExpireTime : Z
}.

Record AccessTokenResponse : Type := mk_AccessTokenResponse {
  AccessTokenResponse_OAPIResponse : OAPIResponse;
  Data : AccessToken
}.

(** The methods of the embedded [OAPIResponse] are promoted. *)
#[global] Instance AccessTokenResponse_Unmarshallable : Unmarshallable AccessTokenResponse :=
  {| checkError e := OAPIResponse_checkError (AccessTokenResponse_OAPIResponse e);
     getWriter e := OAPIResponse_getWriter (AccessTokenResponse_OAPIResponse e) |}.

#[global] Instance AccessTokenResponse_Expirable : Expirable AccessTokenResponse :=
  λ e, ExpireTime (Data e).

(** [var res AccessTokenResponse] *)
Definition zero_AccessTokenResponse : AccessTokenResponse :=
  mk_AccessTokenResponse (mk_OAPIResponse EmptyString EmptyString)
                         (mk_AccessToken EmptyString 0).

Definition zero_OAPIResponse : OAPIResponse :=
  mk_OAPIResponse EmptyString EmptyString.

Definition NewEzvizClient (appKey appSecret : string) : EzvizClient FileCache :=
  mk_EzvizClient appKey appSecret EmptyString
    (mk_Client (10 * time_Second))
    (NewFileCache ("ezviz_" +:+ appKey +:+ ".auth_file")).

(** ** goezviz.go: requests carry a JSON body *)

Module goezviz.
Section client.
Context {C : Type} `{!Cache AccessTokenResponse C}.
Context `{!json_Marshaler (gmap string string)}.

(** The request [httpRequest] builds before it sends it: the first part of
    its body, up to the call of [client.Do].  [http.NewRequest], whose error
    the program drops, is taken to succeed: the address is assumed to be one
    that [url.Parse] accepts. *)
Definition newRequest {D : Type} `{!json_Marshaler D}
    (path : string) (params : url_Values) (requestData : option D) (w : World)
  : http_Request :=
  let ROOT := os_Getenv "oapi_server" w in
  let ROOT := if decide (ROOT = EmptyString) then "open.ys7.com/api" else ROOT in
  let url2 := "https://" +:+ ROOT +:+ "/" +:+ path +:+ "?" +:+ url_Values_Encode params in
  match requestData with
  | Some rd =>
      let '(d, _) := json_Marshal rd in
      mk_Request "POST" url2 {[ "Content-Type" := [typeJSON] ]} (Some d)
  | None => mk_Request "GET" url2 ∅ None
  end.

Definition httpRequest {D R : Type}
    `{!json_Marshaler D, !json_Unmarshaler R, !Unmarshallable R}
    (c : EzvizClient C) (path : string) (params : url_Values)
    (requestData : option D) (responseData : R) : M (option error * R) :=
  let client := HTTPClient c in
  request ← lift (λ w, (newRequest path params requestData w, w));
  '(resp, err) ← lift (http_Client_Do client request);
  match err with
  | Some _ => mret (err, responseData)
  | None =>
      if decide (StatusCode resp ≠ 200%Z)
      then mret (Some (errors_New ("Server error: " +:+ Status resp)), responseData)
      else
        let contentType := http_Header_Get (RespHeader resp) "Content-Type" in
        let pos := String.length typeJSON in
        if (pos <=? String.length contentType)%nat
           && String.eqb (substring 0 pos contentType) typeJSON
        then
          (* [content, err := ...] declares a second [err], local to the branch *)
          let '(content, err') := ioutil_ReadAll (RespBody resp) in
          match err' with
          | None =>
              let '(responseData, _) := json_Unmarshal content responseData in
              mret (checkError responseData, responseData)
          | Some _ => mret (err, responseData)
          end
        else
          _ ← io_Copy (getWriter responseData) (RespBody resp);
          mret (checkError responseData, responseData)
  end.

Definition httpRPC {D R : Type}
    `{!json_Marshaler D, !json_Unmarshaler R, !Unmarshallable R}
    (c : EzvizClient C) (path : string) (params : url_Values)
    (requestData : option D) (responseData : R) : M (option error * R) :=
  let params :=
    if decide (EzvizClient_AccessToken c ≠ EmptyString) then
      let params :=
        match params with
        | None => Some ∅
        | Some _ => params
        end in
      if decide (url_Values_Get params "accessToken" = EmptyString)
      then Some (url_Values_Set (default ∅ params) "accessToken" (EzvizClient_AccessToken c))
      else params
    else params in
  httpRequest c path params requestData responseData.

Definition RefreshAccessToken `{!json_Unmarshaler AccessTokenResponse}
    (c : EzvizClient C) : M (option error * EzvizClient C) :=
  let res := zero_AccessTokenResponse in
  '(err, res) ← lift (Cache_Get (EzvizClient_Cache c) res);
  match err with
  | None => mret (None, set_AccessToken (AccessToken_AccessToken (Data res)) c)
  | Some _ =>
      let params : gmap string string :=
        <[ "appsecret" := AppSecret c ]> (<[ "appkey" := AppKey c ]> ∅) in
      '(err, res) ← httpRPC c "/lapp/token/get" None (Some params) res;
      match err with
      | None =>
          let c := set_AccessToken (AccessToken_AccessToken (Data res)) c in
          '(err, cache) ← lift (Cache_Set (EzvizClient_Cache c) res);
          mret (err, set_Cache cache c)
      | Some _ => mret (err, c)
      end
  end.

End client.
End goezviz.

(** ** The second variant of goezviz.go (in util.go): parameters travel in
    the query string, every request is a POST without body *)

Module goezviz_query.
Section client.
Context {C : Type} `{!Cache AccessTokenResponse C}.

(** The request [httpRequest] builds before it sends it. *)
Definition newRequest (path : string) (params : url_Values) (w : World) : http_Request :=
  let ROOT := os_Getenv "oapi_server" w in
  let ROOT := if decide (ROOT = EmptyString) then "open.ys7.com/api" else ROOT in
  let url2 := "https://" +:+ ROOT +:+ "/" +:+ path +:+ "?" +:+ url_Values_Encode params in
  mk_Request "POST" url2 ∅ None.

Definition httpRequest {D R : Type} `{!json_Unmarshaler R, !Unmarshallable R}
    (c : EzvizClient C) (path : string) (params : url_Values)
    (requestData : option D) (responseData : R) : M (option error * R) :=
  let client := HTTPClient c in
  request ← lift (λ w, (newRequest path params w, w));
  '(resp, err) ← lift (http_Client_Do client request);
  match err with
  | Some _ => mret (err, responseData)
  | None =>
      if decide (StatusCode resp ≠ 200%Z)
      then mret (Some (errors_New ("Server error: " +:+ Status resp)), responseData)
      else
        let contentType := http_Header_Get (RespHeader resp) "Content-Type" in
        let pos := String.length typeJSON in
        if (pos <=? String.length contentType)%nat
           && String.eqb (substring 0 pos contentType) typeJSON
        then
          let '(content, err') := ioutil_ReadAll (RespBody resp) in
          match err' with
          | None =>
              let '(responseData, _) := json_Unmarshal content responseData in
              mret (checkError responseData, responseData)
          | Some _ => mret (err, responseData)
          end
        else
          _ ← io_Copy (getWriter responseData) (RespBody resp);
          mret (checkError responseData, responseData)
  end.

Definition httpRPC {D R : Type} `{!json_Unmarshaler R, !Unmarshallable R}
    (c : EzvizClient C) (path : string) (params : url_Values)
    (requestData : option D) (responseData : R) : M (option error * R) :=
  let params :=
    if decide (EzvizClient_AccessToken c ≠ EmptyString) then
      let params :=
        match params with
        | None => Some ∅
        | Some _ => params
        end in
      if decide (url_Values_Get params "accessToken" = EmptyString)
      then Some (url_Values_Set (default ∅ params) "accessToken" (EzvizClient_AccessToken c))
      else params
    else params in
  httpRequest c path params requestData responseData.

Definition RefreshAccessToken `{!json_Unmarshaler AccessTokenResponse}
    (c : EzvizClient C) : M (option error * EzvizClient C) :=
  let res := zero_AccessTokenResponse in
  '(err, res) ← lift (Cache_Get (EzvizClient_Cache c) res);
  match err with
  | None => mret (None, set_AccessToken (AccessToken_AccessToken (Data res)) c)
  | Some _ =>
      let params : gmap string (list string) :=
        <[ "appSecret" := [AppSecret c] ]> (<[ "appKey" := [AppKey c] ]> ∅) in
      '(err, res) ← httpRPC (D := unit) c "/lapp/token/get" (Some params) None res;
      match err with
      | None =>
          let c := set_AccessToken (AccessToken_AccessToken (Data res)) c in
          '(err, cache) ← lift (Cache_Set (EzvizClient_Cache c) res);
          mret (err, set_Cache cache c)
      | Some _ => mret (err, c)
      end
  end.

End client.
End goezviz_query.

(** ** A reference model of [encoding/json] on the shapes of the program

    The functions below follow the encoder and the decoder of the Go standard
    library for the three shapes the program serialises: the request
    parameters ([map[string]string]), [OAPIResponse] and
    [AccessTokenResponse].  They give the instances of [json_Marshaler] and
    [json_Unmarshaler] the program is run with in the examples; the
    properties of the caches and of the client are proved for every
    instance.  The texts of the decoder's errors are schematic, the limit
    of the decoder on the depth of nesting is left out, and the backspace and
    form feed characters are written as [\u0008] and [\u000c], as the
    encoder did before Go 1.22. *)

Module encoding_json.

Definition byte (n : N) : ascii := ascii_of_N n.

Definition ch_eq (c : ascii) (x : ascii) : bool := Ascii.eqb c x.

Definition lowerhex (n : N) : ascii :=
  nth (N.to_nat n) (list_ascii_of_string "0123456789abcdef") "0"%char.

(** [cont c]: [c] is a continuation byte of UTF-8. *)
Definition cont (c : ascii) : bool :=
  ((128 <=? N_of_ascii c) && (N_of_ascii c <=? 191))%N.

(** The length in bytes of the well-formed rune of several bytes [s] starts
    with, or [0] when [s] starts with none ([utf8.DecodeRune] then yields
    [RuneError] and the width 1). *)
Definition utf8_size (s : string) : nat :=
  match s with
  | String c0 r =>
      let b0 := N_of_ascii c0 in
      if ((194 <=? b0) && (b0 <=? 223))%N then
        match r with
        | String c1 _ => if cont c1 then 2 else 0
        | _ => 0
        end
      else if ((224 <=? b0) && (b0 <=? 239))%N then
        match r with
        | String c1 (String c2 _) =>
            let b1 := N_of_ascii c1 in
            let lo := if (b0 =? 224)%N then 160%N else 128%N in
            let hi := if (b0 =? 237)%N then 159%N else 191%N in
            if ((lo <=? b1) && (b1 <=? hi))%N && cont c2 then 3 else 0
        | _ => 0
        end
      else if ((240 <=? b0) && (b0 <=? 244))%N then
        match r with
        | String c1 (String c2 (String c3 _)) =>
            let b1 := N_of_ascii c1 in
            let lo := if (b0 =? 240)%N then 144%N else 128%N in
            let hi := if (b0 =? 244)%N then 143%N else 191%N in
            if ((lo <=? b1) && (b1 <=? hi))%N && cont c2 && cont c3 then 4 else 0
        | _ => 0
        end
      else 0
  | EmptyString => 0
  end.

Definition take (n : nat) (s : string) : string := substring 0 n s.

Fixpoint drop (n : nat) (s : string) : string :=
  match n, s with
  | S n, String _ r => drop n r
  | _, _ => s
  end.

Definition replacement : string :=
  String (byte 239) (String (byte 191) (String (byte 189) EmptyString)).

Definition backslash : ascii := byte 92.

Definition esc (s : string) : string := String backslash s.

(** One byte below [utf8.RuneSelf], as the encoder writes it inside a
    string (HTML escaping is on for [json.Marshal]). *)
Definition encode_ascii (c : ascii) : string :=
  let n := N_of_ascii c in
  if ch_eq c dquote then esc (String dquote EmptyString)
  else if ch_eq c backslash then esc (String backslash EmptyString)
  else if (n =? 10)%N then esc "n"
  else if (n =? 13)%N then esc "r"
  else if (n =? 9)%N then esc "t"
  else if (n <? 32)%N || ch_eq c "<" || ch_eq c ">" || ch_eq c "&"
  then esc ("u00" +:+ String (lowerhex (n / 16)) (String (lowerhex (n mod 16)) EmptyString))
  else String c EmptyString.

Fixpoint encode_chars (fuel : nat) (s : string) : string :=
  match fuel, s with
  | S fuel, String c r =>
      if (N_of_ascii c <? 128)%N then encode_ascii c +:+ encode_chars fuel r
      else
        match utf8_size s with
        | O => esc "ufffd" +:+ encode_chars fuel r
        | size =>
            let rune := take size s in
            if String.eqb rune (String (byte 226) (String (byte 128) (String (byte 168) EmptyString)))
            then esc "u2028" +:+ encode_chars fuel (drop size s)
            else if String.eqb rune (String (byte 226) (String (byte 128) (String (byte 169) EmptyString)))
            then esc "u2029" +:+ encode_chars fuel (drop size s)
            else rune +:+ encode_chars fuel (drop size s)
        end
  | _, _ => EmptyString
  end.

(** A Go string as a JSON string. *)
Definition encode_string (s : string) : string :=
  quoted (encode_chars (String.length s) s).

Fixpoint digits (fuel : nat) (n : N) (acc : string) : string :=
  match fuel with
  | O => acc
  | S fuel =>
      let acc := String (ascii_of_N (48 + n mod 10)) acc in
      if (n / 10 =? 0)%N then acc else digits fuel (n / 10)%N acc
  end.

(** An [int64] in decimal. *)
Definition encode_int (z : Z) : string :=
  let n := Z.to_N (Z.abs z) in
  let d := digits (S (N.to_nat (N.log2 n))) n EmptyString in
  if (z <? 0)%Z then String "-" d else d.

Fixpoint join_comma (l : list string) : string :=
  match l with
  | [] => EmptyString
  | [x] => x
  | x :: r => x +:+ "," +:+ join_comma r
  end.

Definition member (k v : string) : string := encode_string k +:+ ":" +:+ v.

Definition encode_object (members : list string) : string :=
  "{" +:+ join_comma members +:+ "}".

(** [map[string]string]: the keys come in increasing order. *)
Definition Marshal_map (m : gmap string string) : string * option error :=
  (encode_object
     (map (λ k, member k (encode_string (default EmptyString (m !! k)))) (sorted_keys m)),
   None).

Definition encode_OAPIResponse_members (r : OAPIResponse) : list string :=
  [member "code" (encode_string (Code r)); member "msg" (encode_string (Msg r))].

Definition Marshal_OAPIResponse (r : OAPIResponse) : string * option error :=
  (encode_object (encode_OAPIResponse_members r), None).

Definition encode_AccessToken (d : AccessToken) : string :=
  encode_object [member "accessToken" (encode_string (AccessToken_AccessToken d));
                 member "expireTime" (encode_int (ExpireTime d))].

(** The fields of the embedded [OAPIResponse] come first, at the top level. *)
Definition Marshal_AccessTokenResponse (r : AccessTokenResponse) : string * option error :=
  (encode_object
     (encode_OAPIResponse_members (AccessTokenResponse_OAPIResponse r)
      ++ [member "data" (encode_AccessToken (Data r))]),
   None).

(** *** Decoding *)

Inductive json : Type :=
  | JNull
  | JBool (b : bool)
  | JNumber (lit : string)
  | JString (s : string)
  | JArray (l : list json)
  | JObject (l : list (string * json)).

Definition is_space (c : ascii) : bool :=
  let n := N_of_ascii c in ((n =? 32) || (n =? 9) || (n =? 13) || (n =? 10))%N.

Fixpoint skip_ws (s : string) : string :=
  match s with
  | String c r => if is_space c then skip_ws r else s
  | EmptyString => s
  end.

Definition is_digit (c : ascii) : bool :=
  ((48 <=? N_of_ascii c) && (N_of_ascii c <=? 57))%N.

Definition hexval (c : ascii) : option N :=
  let n := N_of_ascii c in
  if is_digit c then Some (n - 48)%N
  else if ((97 <=? n) && (n <=? 102))%N then Some (n - 87)%N
  else if ((65 <=? n) && (n <=? 70))%N then Some (n - 55)%N
  else None.

(** The rune of an escape [\uXXXX] the string starts with. *)
Definition getu4 (s : string) : option N :=
  match s with
  | String b (String u (String h1 (String h2 (String h3 (String h4 _))))) =>
      if ch_eq b backslash && ch_eq u "u" then
        match hexval h1, hexval h2, hexval h3, hexval h4 with
        | Some a, Some b, Some c, Some d => Some (a * 4096 + b * 256 + c * 16 + d)%N
        | _, _, _, _ => None
        end
      else None
  | _ => None
  end.

(** [utf8.EncodeRune] for a rune that is no surrogate and at most U+10FFFF. *)
Definition encode_rune (r : N) : string :=
  if (r <? 128)%N then String (byte r) EmptyString
  else if (r <? 2048)%N then
    String (byte (192 + r / 64)) (String (byte (128 + r mod 64)) EmptyString)
  else if (r <? 65536)%N then
    String (byte (224 + r / 4096))
      (String (byte (128 + (r / 64) mod 64)) (String (byte (128 + r mod 64)) EmptyString))
  else
    String (byte (240 + r / 262144))
      (String (byte (128 + (r / 4096) mod 64))
         (String (byte (128 + (r / 64) mod 64)) (String (byte (128 + r mod 64)) EmptyString))).

Definition is_surrogate (r : N) : bool := ((55296 <=? r) && (r <? 57344))%N.

(** [utf16.DecodeRune]: the rune of a surrogate pair, if it is one. *)
Definition utf16_DecodeRune (r1 r2 : N) : option N :=
  if ((55296 <=? r1) && (r1 <? 56320) && (56320 <=? r2) && (r2 <? 57344))%N
  then Some ((r1 - 55296) * 1024 + (r2 - 56320) + 65536)%N
  else None.

Definition simple_escape (e : ascii) : option ascii :=
  if ch_eq e dquote then Some dquote
  else if ch_eq e backslash then Some backslash
  else if ch_eq e "/" then Some "/"%char
  else if ch_eq e "b" then Some (byte 8)
  else if ch_eq e "f" then Some (byte 12)
  else if ch_eq e "n" then Some (byte 10)
  else if ch_eq e "r" then Some (byte 13)
  else if ch_eq e "t" then Some (byte 9)
  else None.

Definition emit (x : string) (k : option (string * string)) : option (string * string) :=
  match k with
  | Some (t, rest) => Some (x +:+ t, rest)
  | None => None
  end.

(** The content of a JSON string whose opening quote has been read, and what
    follows its closing quote. *)
Fixpoint unquote (fuel : nat) (s : string) : option (string * string) :=
  match fuel, s with
  | S fuel, String c r =>
      if ch_eq c dquote then Some (EmptyString, r)
      else if ch_eq c backslash then
        match r with
        | String e r' =>
            if ch_eq e "u" then
              match getu4 s with
              | Some rr =>
                  let r6 := drop 6 s in
                  if is_surrogate rr then
                    match getu4 r6 with
                    | Some rr1 =>
                        match utf16_DecodeRune rr rr1 with
                        | Some dec => emit (encode_rune dec) (unquote fuel (drop 6 r6))
                        | None => emit replacement (unquote fuel r6)
                        end
                    | None => emit replacement (unquote fuel r6)
                    end
                  else emit (encode_rune rr) (unquote fuel r6)
              | None => None
              end
            else
              match simple_escape e with
              | Some x => emit (String x EmptyString) (unquote fuel r')
              | None => None
              end
        | EmptyString => None
        end
      else if (N_of_ascii c <? 32)%N then None
      else if (N_of_ascii c <? 128)%N then emit (String c EmptyString) (unquote fuel r)
      else
        match utf8_size s with
        | O => emit replacement (unquote fuel r)
        | size => emit (take size s) (unquote fuel (drop size s))
        end
  | _, _ => None
  end.

Fixpoint span_digits (s : string) : string * string :=
  match s with
  | String c r =>
      if is_digit c then let '(d, rest) := span_digits r in (String c d, rest)
      else (EmptyString, s)
  | EmptyString => (EmptyString, s)
  end.

(** The longest prefix that is a JSON number. *)
Definition scan_number (s : string) : option (string * string) :=
  let '(sign, s) :=
    match s with
    | String c r => if ch_eq c "-" then ("-", r) else (EmptyString, s)
    | EmptyString => (EmptyString, s)
    end in
  match s with
  | String c r =>
      if is_digit c then
        let '(int, s) :=
          if ch_eq c "0" then ("0", r)
          else let '(d, rest) := span_digits r in (String c d, rest) in
        let frac :=
          match s with
          | String c r =>
              if ch_eq c "." then
                let '(d, rest) := span_digits r in
                if String.eqb d EmptyString then None else Some ("." +:+ d, rest)
              else Some (EmptyString, s)
          | EmptyString => Some (EmptyString, s)
          end in
        match frac with
        | None => None
        | Some (frac, s) =>
            match s with
            | String c r =>
                if ch_eq c "e" || ch_eq c "E" then
                  let '(esign, r) :=
                    match r with
                    | String c' r' =>
                        if ch_eq c' "+" || ch_eq c' "-"
                        then (String c' EmptyString, r') else (EmptyString, r)
                    | EmptyString => (EmptyString, r)
                    end in
                  let '(d, rest) := span_digits r in
                  if String.eqb d EmptyString then None
                  else Some (sign +:+ int +:+ frac +:+ String c esign +:+ d, rest)
                else Some (sign +:+ int +:+ frac, s)
            | EmptyString => Some (sign +:+ int +:+ frac, s)
            end
        end
      else None
  | EmptyString => None
  end.

Definition literal (word : string) (v : json) (s : string) : option (json * string) :=
  if String.eqb (take (String.length word) s) word
  then Some (v, drop (String.length word) s) else None.

Fixpoint value (fuel : nat) (s : string) : option (json * string) :=
  match fuel, s with
  | S fuel, String c r =>
      if ch_eq c "{" then
        match skip_ws r with
        | String c' r' =>
            if ch_eq c' "}" then Some (JObject [], r')
            else
              match members fuel (String c' r') with
              | Some (l, rest) => Some (JObject l, rest)
              | None => None
              end
        | EmptyString => None
        end
      else if ch_eq c "[" then
        match skip_ws r with
        | String c' r' =>
            if ch_eq c' "]" then Some (JArray [], r')
            else
              match elements fuel (String c' r') with
              | Some (l, rest) => Some (JArray l, rest)
              | None => None
              end
        | EmptyString => None
        end
      else if ch_eq c dquote then
        match unquote (S (String.length r)) r with
        | Some (t, rest) => Some (JString t, rest)
        | None => None
        end
      else if ch_eq c "-" || is_digit c then
        match scan_number s with
        | Some (lit, rest) => Some (JNumber lit, rest)
        | None => None
        end
      else if ch_eq c "t" then literal "true" (JBool true) s
      else if ch_eq c "f" then literal "false" (JBool false) s
      else if ch_eq c "n" then literal "null" JNull s
      else None
  | _, _ => None
  end
with members (fuel : nat) (s : string) : option (list (string * json) * string) :=
  match fuel, s with
  | S fuel, String c r =>
      if ch_eq c dquote then
        match unquote (S (String.length r)) r with
        | Some (k, rest) =>
            match skip_ws rest with
            | String c rest =>
                if ch_eq c ":" then
                  match value fuel (skip_ws rest) with
                  | Some (v, rest) =>
                      match skip_ws rest with
                      | String c rest =>
                          if ch_eq c "," then
                            match members fuel (skip_ws rest) with
                            | Some (l, rest) => Some ((k, v) :: l, rest)
                            | None => None
                            end
                          else if ch_eq c "}" then Some ([(k, v)], rest)
                          else None
                      | EmptyString => None
                      end
                  | None => None
                  end
                else None
            | EmptyString => None
            end
        | None => None
        end
      else None
  | _, _ => None
  end
with elements (fuel : nat) (s : string) : option (list json * string) :=
  match fuel, s with
  | S fuel, String _ _ =>
      match value fuel s with
      | Some (v, rest) =>
          match skip_ws rest with
          | String c rest =>
              if ch_eq c "," then
                match elements fuel (skip_ws rest) with
                | Some (l, rest) => Some (v :: l, rest)
                | None => None
                end
              else if ch_eq c "]" then Some ([v], rest)
              else None
          | EmptyString => None
          end
      | None => None
      end
  | _, _ => None
  end.

(** The JSON value a text denotes; [None] for a text that is not JSON. *)
Definition parse (s : string) : option json :=
  match value (S (String.length s)) (skip_ws s) with
  | Some (v, rest) =>
      match skip_ws rest with
      | EmptyString => Some v
      | String _ _ => None
      end
  | None => None
  end.

Definition lower (c : ascii) : ascii :=
  let n := N_of_ascii c in
  if ((65 <=? n) && (n <=? 90))%N then byte (n + 32) else c.

(** The key of a member as it is compared with the names of the fields:
    letters in lower case, the long s (U+017F) as [s] and the Kelvin sign
    (U+212A) as [k]. *)
Fixpoint foldName (s : string) : string :=
  match s with
  | EmptyString => EmptyString
  | String c r =>
      match r with
      | String c2 r2 =>
          if ch_eq c (byte 197) && ch_eq c2 (byte 191) then String "s" (foldName r2)
          else
            match r2 with
            | String c3 r3 =>
                if ch_eq c (byte 226) && ch_eq c2 (byte 132) && ch_eq c3 (byte 170)
                then String "k" (foldName r3)
                else String (lower c) (foldName r)
            | EmptyString => String (lower c) (foldName r)
            end
      | EmptyString => String (lower c) (foldName r)
      end
  end.

Definition kind (v : json) : string :=
  match v with
  | JNull => "null"
  | JBool _ => "bool"
  | JNumber lit => "number " +:+ lit
  | JString _ => "string"
  | JArray _ => "array"
  | JObject _ => "object"
  end.

Definition UnmarshalTypeError (v : json) (field type : string) : error :=
  errors_New ("json: cannot unmarshal " +:+ kind v +:+ " into Go struct field "
              +:+ field +:+ " of type " +:+ type).

Definition SyntaxError : error := errors_New "invalid character in JSON input".

(** The decoder goes on after an error and reports the first one. *)
Definition saveError (saved : option error) (e : error) : option error :=
  match saved with
  | Some _ => saved
  | None => Some e
  end.

Fixpoint decimal (s : string) (acc : N) : option N :=
  match s with
  | EmptyString => Some acc
  | String c r =>
      if is_digit c then decimal r (acc * 10 + (N_of_ascii c - 48))%N else None
  end.

(** [strconv.ParseInt(lit, 10, 64)] on the literal of a JSON number. *)
Definition ParseInt64 (lit : string) : option Z :=
  let '(neg, d) :=
    match lit with
    | String c r => if ch_eq c "-" then (true, r) else (false, lit)
    | EmptyString => (false, lit)
    end in
  match d with
  | EmptyString => None
  | String _ _ =>
      match decimal d 0 with
      | Some n =>
          let z := if neg then (- Z.of_N n)%Z else Z.of_N n in
          if ((- 2 ^ 63 <=? z) && (z <? 2 ^ 63))%Z then Some z else None
      | None => None
      end
  end.

Definition set_string (field : string) (v : json) (old : string) (saved : option error)
  : string * option error :=
  match v with
  | JString s => (s, saved)
  | JNull => (old, saved)
  | _ => (old, saveError saved (UnmarshalTypeError v field "string"))
  end.

Definition set_int64 (field : string) (v : json) (old : Z) (saved : option error)
  : Z * option error :=
  match v with
  | JNumber lit =>
      match ParseInt64 lit with
      | Some z => (z, saved)
      | None => (old, saveError saved (UnmarshalTypeError v field "int64"))
      end
  | JNull => (old, saved)
  | _ => (old, saveError saved (UnmarshalTypeError v field "int64"))
  end.

(** One member of an object decoded into an [OAPIResponse]; [None] when its
    key names no field of the struct. *)
Definition set_OAPIResponse (k : string) (v : json) (r : OAPIResponse)
    (saved : option error) : option (OAPIResponse * option error) :=
  if String.eqb (foldName k) "code" then
    let '(s, saved) := set_string "OAPIResponse.code" v (Code r) saved in
    Some (mk_OAPIResponse s (Msg r), saved)
  else if String.eqb (foldName k) "msg" then
    let '(s, saved) := set_string "OAPIResponse.msg" v (Msg r) saved in
    Some (mk_OAPIResponse (Code r) s, saved)
  else None.

Definition decode_OAPIResponse (l : list (string * json)) (r : OAPIResponse)
  : OAPIResponse * option error :=
  foldl (λ st kv, default st (set_OAPIResponse kv.1 kv.2 st.1 st.2)) (r, None) l.

Definition set_AccessToken_field (k : string) (v : json) (d : AccessToken)
    (saved : option error) : AccessToken * option error :=
  if String.eqb (foldName k) "accesstoken" then
    let '(s, saved) := set_string "AccessToken.accessToken" v (AccessToken_AccessToken d) saved in
    (mk_AccessToken s (ExpireTime d), saved)
  else if String.eqb (foldName k) "expiretime" then
    let '(z, saved) := set_int64 "AccessToken.expireTime" v (ExpireTime d) saved in
    (mk_AccessToken (AccessToken_AccessToken d) z, saved)
  else (d, saved).

Definition decode_AccessToken (v : json) (d : AccessToken) (saved : option error)
  : AccessToken * option error :=
  match v with
  | JObject l => foldl (λ st kv, set_AccessToken_field kv.1 kv.2 st.1 st.2) (d, saved) l
  | JNull => (d, saved)
  | _ => (d, saveError saved (UnmarshalTypeError v "AccessTokenResponse.data" "ezviz.AccessToken"))
  end.

Definition set_AccessTokenResponse (k : string) (v : json) (r : AccessTokenResponse)
    (saved : option error) : AccessTokenResponse * option error :=
  match set_OAPIResponse k v (AccessTokenResponse_OAPIResponse r) saved with
  | Some (o, saved) => (mk_AccessTokenResponse o (Data r), saved)
  | None =>
      if String.eqb (foldName k) "data" then
        let '(d, saved) := decode_AccessToken v (Data r) saved in
        (mk_AccessTokenResponse (AccessTokenResponse_OAPIResponse r) d, saved)
      else (r, saved)
  end.

Definition decode_AccessTokenResponse (l : list (string * json)) (r : AccessTokenResponse)
  : AccessTokenResponse * option error :=
  foldl (λ st kv, set_AccessTokenResponse kv.1 kv.2 st.1 st.2) (r, None) l.

(** [json.Unmarshal] into a struct: a text that is not JSON leaves the struct
    as it is; [null] does too, without error; a value that is no object is
    an error; the members of an object are stored one after the other. *)
Definition Unmarshal_struct {T : Type} (name : string)
    (decode : list (string * json) → T → T * option error) (bytes : string) (r : T)
  : T * option error :=
  match parse bytes with
  | None =>
      (r, Some (if String.eqb bytes EmptyString
                then errors_New "unexpected end of JSON input" else SyntaxError))
  | Some JNull => (r, None)
  | Some (JObject l) => decode l r
  | Some v =>
      (r, Some (errors_New ("json: cannot unmarshal " +:+ kind v
                            +:+ " into Go value of type " +:+ name)))
  end.

Definition Unmarshal_OAPIResponse : string → OAPIResponse → OAPIResponse * option error :=
  Unmarshal_struct "ezviz.OAPIResponse" decode_OAPIResponse.

Definition Unmarshal_AccessTokenResponse
  : string → AccessTokenResponse → AccessTokenResponse * option error :=
  Unmarshal_struct "ezviz.AccessTokenResponse" decode_AccessTokenResponse.

(** *** Well-formed text *)

(** A string all of whose runes are well formed. *)
Fixpoint well_formed (fuel : nat) (s : string) : bool :=
  match s, fuel with
  | EmptyString, _ => true
  | String c r, S fuel =>
      if (N_of_ascii c <? 128)%N then well_formed fuel r
      else
        match utf8_size s with
        | O => false
        | size => well_formed fuel (drop size s)
        end
  | String _ _, O => false
  end.

(** [utf8.ValidString] *)
Definition utf8_Valid (s : string) : bool := well_formed (String.length s) s.

(** The line and paragraph separators, which the encoder escapes. *)
Definition u2028 : string :=
  String (byte 226) (String (byte 128) (String (byte 168) EmptyString)).
Definition u2029 : string :=
  String (byte 226) (String (byte 128) (String (byte 169) EmptyString)).

(** A record all of whose strings are well-formed UTF-8 and whose expiry is
    an [int64]. *)
Definition representable (r : AccessTokenResponse) : Prop :=
  utf8_Valid (Code (AccessTokenResponse_OAPIResponse r)) = true
  ∧ utf8_Valid (Msg (AccessTokenResponse_OAPIResponse r)) = true
  ∧ utf8_Valid (AccessToken_AccessToken (Data r)) = true
  ∧ (- 2 ^ 63 <= ExpireTime (Data r) < 2 ^ 63)%Z.

End encoding_json.

(** The codecs the examples run the program with. *)
Definition map_Marshaler : json_Marshaler (gmap string string) :=
  encoding_json.Marshal_map.
Definition OAPIResponse_Marshaler : json_Marshaler OAPIResponse :=
  encoding_json.Marshal_OAPIResponse.
Definition OAPIResponse_Unmarshaler : json_Unmarshaler OAPIResponse :=
  encoding_json.Unmarshal_OAPIResponse.
Definition AccessTokenResponse_Marshaler : json_Marshaler AccessTokenResponse :=
  encoding_json.Marshal_AccessTokenResponse.
Definition AccessTokenResponse_Unmarshaler : json_Unmarshaler AccessTokenResponse :=
  encoding_json.Unmarshal_AccessTokenResponse.

(** A world with nothing in it: no file, no variable, a network that answers
    every request with [reply]. *)
Definition world (now : Z) (reply : http_Response * option error) : World :=
  mk_World ∅ ∅ now ∅ (λ _, reply) [] ∅.

Definition json_header : gmap string (list string) :=
  {[ "Content-Type" := ["application/json; charset=utf-8"] ]}.

Definition html_header : gmap string (list string) :=
  {[ "Content-Type" := ["text/html"] ]}.

Definition ok_response (header : gmap string (list string)) (body : string)
  : http_Response * option error :=
  (mk_Response 200 "200 OK" header (mk_Body body None), None).

Definition no_response : http_Response :=
  mk_Response 0 EmptyString ∅ (mk_Body EmptyString None).

Definition unreachable : http_Response * option error :=
  (no_response, Some (errors_New "dial tcp: connection refused")).

(** The world once [request] has been sent. *)
Definition sent (request : http_Request) (w : World) : World :=
  set_requests (requests w ++ [request]) w.

(** The world once [bytes] have been written to the sink [h]. *)
Definition written (h : io_Writer) (bytes : string) (w : World) : World :=
  set_sinks (<[h := default EmptyString (sinks w !! h) +:+ bytes]> (sinks w)) w.

(** A cache double that stores nothing: [Get] finds no record and [Set]
    fails. *)
Inductive FailingCache : Type := failing_cache.

#[global] Instance FailingCache_Cache : Cache AccessTokenResponse FailingCache :=
  {| Cache_Set c d w := ((Some (errors_New "cache is read-only"), c), w);
     Cache_Get c d w := ((Some (errors_New "cache is empty"), d), w);
     Cache_Set_requests c d w := eq_refl;
     Cache_Get_requests c d w := eq_refl |}.

(** The request data of the authentication call of goezviz.go. *)
Definition auth_params {C : Type} (c : EzvizClient C) : gmap string string :=
  <[ "appsecret" := AppSecret c ]> (<[ "appkey" := AppKey c ]> ∅).

(** The query parameters of the authentication call of the second variant. *)
Definition auth_values {C : Type} (c : EzvizClient C) : gmap string (list string) :=
  <[ "appSecret" := [AppSecret c] ]> (<[ "appKey" := [AppKey c] ]> ∅).

(** The document of the scenario of the specification, and its record. *)
Definition token_document : string :=
  "{" +:+ quoted "code" +:+ ":" +:+ quoted "200" +:+ "," +:+ quoted "msg" +:+ ":" +:+ quoted EmptyString
  +:+ "," +:+ quoted "data" +:+ ":{" +:+ quoted "accessToken" +:+ ":" +:+ quoted "TOK" +:+ ","
  +:+ quoted "expireTime" +:+ ":1999999999000}}".

Definition token_record : AccessTokenResponse :=
  mk_AccessTokenResponse (mk_OAPIResponse "200" EmptyString)
                         (mk_AccessToken "TOK" 1999999999000).

(** ** util.go: [sha1Sign]

    [crypto/sha1] follows the standard: the message is padded to blocks of
    64 bytes and each block goes through eighty rounds on five words of 32
    bits. *)

Module crypto_sha1.

Definition add32 (a b : N) : N := ((a + b) mod 4294967296)%N.

Definition not32 (a : N) : N := N.lxor a 4294967295.

(** Rotation of a word of 32 bits to the left. *)
Definition rotl (k x : N) : N :=
  N.lor (N.shiftl x k mod 4294967296)%N (N.shiftr x (32 - k)).

(** A number as [n] bytes, the most significant first. *)
Fixpoint big_endian (n : nat) (x : N) : list N :=
  match n with
  | O => []
  | S n => ((x / 256 ^ N.of_nat n) mod 256)%N :: big_endian n x
  end.

(** The message followed by the bit 1, zeros up to 56 bytes modulo 64, and
    its length in bits on 8 bytes. *)
Definition pad (msg : list N) : list N :=
  let len := N.of_nat (length msg) in
  msg ++ [128%N] ++ repeat 0%N (N.to_nat ((119 - len mod 64) mod 64))
      ++ big_endian 8 ((8 * len) mod 18446744073709551616)%N.

Fixpoint words (bytes : list N) : list N :=
  match bytes with
  | a :: b :: c :: d :: r => (a * 16777216 + b * 65536 + c * 256 + d)%N :: words r
  | _ => []
  end.

Fixpoint blocks (fuel : nat) (ws : list N) : list (list N) :=
  match fuel, ws with
  | S fuel, _ :: _ => take 16 ws :: blocks fuel (drop 16 ws)
  | _, _ => []
  end.

Definition at_ (w : list N) (i : nat) : N := nth i w 0%N.

(** The sixteen words of a block extended to eighty. *)
Fixpoint schedule (n : nat) (w : list N) : list N :=
  match n with
  | O => w
  | S n =>
      let i := length w in
      schedule n
        (w ++ [rotl 1 (N.lxor (N.lxor (at_ w (i - 3)) (at_ w (i - 8)))
                              (N.lxor (at_ w (i - 14)) (at_ w (i - 16))))])
  end.

Definition digest : Type := N * N * N * N * N.

Definition round (i : nat) (wi : N) (s : digest) : digest :=
  let '(a, b, c, d, e) := s in
  let '(f, k) :=
    if (i <? 20)%nat then (N.lor (N.land b c) (N.land (not32 b) d), 1518500249%N)
    else if (i <? 40)%nat then (N.lxor (N.lxor b c) d, 1859775393%N)
    else if (i <? 60)%nat
    then (N.lor (N.lor (N.land b c) (N.land b d)) (N.land c d), 2400959708%N)
    else (N.lxor (N.lxor b c) d, 3395469782%N) in
  let t := add32 (add32 (add32 (add32 (rotl 5 a) f) e) k) wi in
  (t, a, rotl 30 b, c, d).

Fixpoint rounds (i : nat) (w : list N) (s : digest) : digest :=
  match w with
  | [] => s
  | wi :: w => rounds (S i) w (round i wi s)
  end.

Definition block (h : digest) (ws : list N) : digest :=
  let '(h0, h1, h2, h3, h4) := h in
  let '(a, b, c, d, e) := rounds 0 (schedule 64 ws) h in
  (add32 h0 a, add32 h1 b, add32 h2 c, add32 h3 d, add32 h4 e).

Definition init : digest :=
  (1732584193, 4023233417, 2562383102, 271733878, 3285377520)%N.

(** [h := sha1.New(); h.Write(msg); h.Sum(nil)] *)
Definition Sum (msg : list N) : list N :=
  let ws := words (pad msg) in
  let '(h0, h1, h2, h3, h4) := foldl block init (blocks (length ws) ws) in
  big_endian 4 h0 ++ big_endian 4 h1 ++ big_endian 4 h2 ++ big_endian 4 h3
  ++ big_endian 4 h4.

End crypto_sha1.

Definition hexdigit (n : N) : ascii :=
  nth (N.to_nat n) (list_ascii_of_string "0123456789abcdef") "0"%char.

(** [fmt.Sprintf("%x", bs)]: two digits for every byte. *)
Fixpoint fmt_Sprintf_x (bs : list N) : string :=
  match bs with
  | [] => EmptyString
  | b :: bs => String (hexdigit (b / 16)) (String (hexdigit (b mod 16)) (fmt_Sprintf_x bs))
  end.

(** [[]byte(s)] *)
Definition bytes_of (s : string) : list N := map N_of_ascii (list_ascii_of_string s).

Definition sha1Sign (s : string) : string :=
  let bs := crypto_sha1.Sum (bytes_of s) in
  fmt_Sprintf_x bs.

Definition is_lowerhex (c : ascii) : bool :=
  let n := N_of_ascii c in
  (((48 <=? n) && (n <=? 57)) || ((97 <=? n) && (n <=? 102)))%N.

(** A record that [json.Marshal] refuses, as it refuses a struct with a
    field that is a channel. *)
Record Unencodable : Type := mk_Unencodable { deadline : Z }.

#[global] Instance Unencodable_Expirable : Expirable Unencodable := deadline.

Definition Unencodable_Marshaler : json_Marshaler Unencodable :=
  λ _, (EmptyString, Some (errors_New "json: unsupported type: chan int")).

Definition Unencodable_Unmarshaler : json_Unmarshaler Unencodable :=
  λ _ d, (d, Some (errors_New "json: cannot unmarshal into Go value of type chan int")).

(** The query parameters [httpRPC] sends when its caller passes none: the
    token of the client, if it holds one. *)
Definition token_query {C : Type} (c : EzvizClient C) : url_Values :=
  if decide (EzvizClient_AccessToken c ≠ EmptyString)
  then Some (<[ "accessToken" := [EzvizClient_AccessToken c] ]> ∅)
  else None.


(** A second token record, which expires later. *)
Definition newer_record : AccessTokenResponse :=
  mk_AccessTokenResponse (mk_OAPIResponse "200" EmptyString)
                         (mk_AccessToken "NEW" 2999999999000).

(** * Properties *)

Ltac unfold_M :=
  unfold mbind, M_bind, mret, M_ret, lift in *.

Ltac run_httpRequest :=
  unfold goezviz.httpRequest, goezviz_query.httpRequest, http_Client_Do,
    ioutil_ReadAll, sent;
  unfold_M; cbv zeta.

(** ** The dispatcher *)

Lemma length_substring_0 (n : nat) (s : string) :
  String.length (substring 0 n s) = Nat.min n (String.length s).
Proof.
  revert n. induction s as [|c s IH]; intros [|n]; simpl; auto.
Qed.

(** The test of [httpRequest] on the content type is a test of prefix. *)
Lemma typeJSON_test (contentType : string) :
  (String.length typeJSON <=? String.length contentType)%nat
  && String.eqb (substring 0 (String.length typeJSON) contentType) typeJSON
  = String.prefix typeJSON contentType.
Proof.
  destruct (String.prefix typeJSON contentType) eqn:Hp.
  - apply prefix_correct in Hp.
    apply andb_true_iff. split.
    + apply Nat.leb_le. rewrite <- Hp at 1. rewrite length_substring_0. lia.
    + by apply String.eqb_eq.
  - apply andb_false_iff. right. apply String.eqb_neq. intros H.
    apply prefix_correct in H. congruence.
Qed.

Section dispatch.
Context {C D R : Type}.
Context `{!json_Marshaler D, !json_Unmarshaler R, !Unmarshallable R}.
Implicit Types (c : EzvizClient C) (params : url_Values) (requestData : option D).
Implicit Types (responseData : R) (w : World) (resp : http_Response).

(** Whatever the answer, [httpRequest] sends exactly one request. *)
Lemma httpRequest_requests c path params requestData responseData w :
  requests (goezviz.httpRequest c path params requestData responseData w).2
  = requests w ++ [goezviz.newRequest path params requestData w].
Proof.
  run_httpRequest.
  destruct (network w _) as [resp [e|]]; [done|].
  case_decide; [done|].
  case_match.
  - destruct (read_error _); [done|]. by destruct (json_Unmarshal _ _).
  - unfold io_Copy. destruct (getWriter responseData); [done|]. by case_decide.
Qed.

Lemma query_httpRequest_requests c path params requestData responseData w :
  requests (goezviz_query.httpRequest c path params requestData responseData w).2
  = requests w ++ [goezviz_query.newRequest path params w].
Proof.
  run_httpRequest.
  destruct (network w _) as [resp [e|]]; [done|].
  case_decide; [done|].
  case_match.
  - destruct (read_error _); [done|]. by destruct (json_Unmarshal _ _).
  - unfold io_Copy. destruct (getWriter responseData); [done|]. by case_decide.
Qed.

Lemma httpRPC_requests c path params requestData responseData w :
  ∃ params',
    requests (goezviz.httpRPC c path params requestData responseData w).2
    = requests w ++ [goezviz.newRequest path params' requestData w].
Proof.
  unfold goezviz.httpRPC. eexists. apply httpRequest_requests.
Qed.

Lemma query_httpRPC_requests c path params requestData responseData w :
  ∃ params',
    requests (goezviz_query.httpRPC c path params requestData responseData w).2
    = requests w ++ [goezviz_query.newRequest path params' w].
Proof.
  unfold goezviz_query.httpRPC. eexists. apply query_httpRequest_requests.
Qed.

Lemma newRequest_with_data path params (rd : D) w :
  Method (goezviz.newRequest path params (Some rd) w) = "POST"
  ∧ Body (goezviz.newRequest path params (Some rd) w) = Some (json_Marshal rd).1.
Proof.
  unfold goezviz.newRequest. by destruct (json_Marshal rd).
Qed.

(** C5.  A response with status 200 and a content type that begins with
    [application/json], whose body is read to its end, is decoded into the
    response shape, and the code the decoded shape reports decides the
    result: no error for the code 200, and for any other code the error made
    of the code and the message.  The shape is any one that takes its
    [checkError] from the [OAPIResponse] it embeds. *)
Theorem httpRequest_json_code_decides
    c path params requestData responseData w resp (base : R → OAPIResponse) :
  (∀ r, checkError r = OAPIResponse_checkError (base r)) →
  network w (goezviz.newRequest path params requestData w) = (resp, None) →
  StatusCode resp = 200%Z →
  String.prefix typeJSON (http_Header_Get (RespHeader resp) "Content-Type") = true →
  read_error (RespBody resp) = None →
  let decoded := (json_Unmarshal (content (RespBody resp)) responseData).1 in
  goezviz.httpRequest c path params requestData responseData w =
    (Ret (if decide (Code (base decoded) = "200") then None
          else Some (errors_New (Code (base decoded) +:+ ": " +:+ Msg (base decoded))),
          decoded),
     sent (goezviz.newRequest path params requestData w) w).
Proof.
  intros Hbase Hnet Hstatus Hjson Hread decoded. subst decoded.
  run_httpRequest. rewrite Hnet.
  case_decide; [done|].
  rewrite typeJSON_test, Hjson, Hread.
  destruct (json_Unmarshal _ _) as [decoded e]. simpl.
  rewrite Hbase. unfold OAPIResponse_checkError, fmt_Errorf_s_s.
  repeat case_decide; done.
Qed.

(** C6.  A response whose status is not 200 is a server error that carries
    the status line; the body is neither read nor decoded, whatever it is:
    the response shape comes back as it was given and no sink is written. *)
Theorem httpRequest_status_short_circuit
    c path params requestData responseData w resp :
  network w (goezviz.newRequest path params requestData w) = (resp, None) →
  StatusCode resp ≠ 200%Z →
  goezviz.httpRequest c path params requestData responseData w =
    (Ret (Some (errors_New ("Server error: " +:+ Status resp)), responseData),
     sent (goezviz.newRequest path params requestData w) w).
Proof.
  intros Hnet Hstatus.
  run_httpRequest. rewrite Hnet.
  by case_decide.
Qed.

(** C9.  When the body of a JSON response with status 200 does not decode,
    the error of the decoder is dropped: the result is what [checkError]
    says of the shape as the decoder left it. *)
Theorem httpRequest_decode_error_dropped
    c path params requestData responseData w resp decoded (e : error) :
  network w (goezviz.newRequest path params requestData w) = (resp, None) →
  StatusCode resp = 200%Z →
  String.prefix typeJSON (http_Header_Get (RespHeader resp) "Content-Type") = true →
  read_error (RespBody resp) = None →
  json_Unmarshal (content (RespBody resp)) responseData = (decoded, Some e) →
  goezviz.httpRequest c path params requestData responseData w =
    (Ret (checkError decoded, decoded),
     sent (goezviz.newRequest path params requestData w) w).
Proof.
  intros Hnet Hstatus Hjson Hread Hdecode.
  run_httpRequest. rewrite Hnet.
  case_decide; [done|].
  by rewrite typeJSON_test, Hjson, Hread, Hdecode.
Qed.

(** C10.  A response with status 200 and any other content type is copied
    into the writer that [getWriter] of the response shape returns, and
    [checkError] of the untouched shape is the result.  [getWriter] of
    [OAPIResponse], which [AccessTokenResponse] inherits, returns [nil]: with
    such a shape the copy has no destination, and it panics as soon as the
    body holds a byte. *)
Theorem httpRequest_stream_needs_writer
    c path params requestData responseData w resp :
  network w (goezviz.newRequest path params requestData w) = (resp, None) →
  StatusCode resp = 200%Z →
  String.prefix typeJSON (http_Header_Get (RespHeader resp) "Content-Type") = false →
  let w1 := sent (goezviz.newRequest path params requestData w) w in
  (∀ data : OAPIResponse, getWriter data = None)
  ∧ (∀ e : AccessTokenResponse, getWriter e = None)
  ∧ goezviz.httpRequest c path params requestData responseData w =
      (_ ← io_Copy (getWriter responseData) (RespBody resp);
       mret (checkError responseData, responseData)) w1
  ∧ goezviz.httpRequest c path params requestData responseData w =
      match getWriter responseData with
      | Some h =>
          (Ret (checkError responseData, responseData),
           written h (content (RespBody resp)) w1)
      | None =>
          if decide (content (RespBody resp) = EmptyString)
          then (Ret (checkError responseData, responseData), w1)
          else (Panic nil_dereference, w1)
      end.
Proof.
  intros Hnet Hstatus Hjson w1. subst w1.
  split; [done|]. split; [done|].
  run_httpRequest. rewrite Hnet.
  case_decide; [done|].
  rewrite typeJSON_test, Hjson.
  split; [done|].
  unfold io_Copy, written.
  destruct (getWriter responseData); [done|].
  by case_decide.
Qed.

(** C7 (amended).  [httpRPC] hands its arguments over to [httpRequest], with
    the parameters changed in one case only: when the client holds a token
    that is not empty and [Get] finds no value, or an empty first value,
    under [accessToken] in the parameters of the caller, the values of
    [accessToken] are replaced by the token of the client.  Both variants
    of the client do so. *)
Theorem httpRPC_injects_token c path params requestData responseData :
  let params' :=
    if decide (EzvizClient_AccessToken c ≠ EmptyString
               ∧ url_Values_Get params "accessToken" = EmptyString)
    then Some (<[ "accessToken" := [EzvizClient_AccessToken c] ]> (default ∅ params))
    else params in
  goezviz.httpRPC c path params requestData responseData
  = goezviz.httpRequest c path params' requestData responseData
  ∧ goezviz_query.httpRPC c path params requestData responseData
    = goezviz_query.httpRequest c path params' requestData responseData
  ∧ (url_Values_Get params "accessToken" = EmptyString
     ↔ match default ∅ params !! "accessToken" with
       | Some (first :: _) => first = EmptyString
       | _ => True
       end).
Proof.
  unfold goezviz.httpRPC, goezviz_query.httpRPC, url_Values_Set.
  split; [|split].
  - destruct params as [m|]; simpl; repeat case_decide; try done; tauto.
  - destruct params as [m|]; simpl; repeat case_decide; try done; tauto.
  - unfold url_Values_Get. destruct params as [m|]; simpl; [|done].
    by destruct (m !! "accessToken") as [[|first rest]|].
Qed.

End dispatch.

(** ** The caches *)

Section cache_properties.
Context {T : Type} `{!Expirable T, !json_Marshaler T, !json_Unmarshaler T}.
Implicit Types (d R : T) (w : World).

(** C2 (amended).  When the stored bytes decode without error, [Get] of
    either cache fails with the expiry error exactly when the clock, in
    seconds, is strictly past the expiration instant divided by 1000 (the
    quotient is truncated toward zero), and succeeds otherwise; in the
    second in which the record expires, [Get] still succeeds. *)
Theorem Get_expired_iff_past bytes d R w :
  json_Unmarshal bytes d = (R, None) →
  (∀ c : FileCache, files w !! Path c = Some bytes →
     FileCache_Get c d w =
       ((if decide (GetExpireTime R `quot` 1000 < unix_now w)%Z
         then Some err_expired else None, R), w))
  ∧ InMemoryCache_Get {| data := bytes |} d w =
      ((if decide (GetExpireTime R `quot` 1000 < unix_now w)%Z
        then Some err_expired else None, R), w).
Proof.
  intros Hdecode. split.
  - intros c Hfile. unfold FileCache_Get, ioutil_ReadFile, time_Now_Unix.
    rewrite Hfile, Hdecode.
    destruct (Z.gtb_spec (unix_now w) (GetExpireTime R `quot` 1000));
      case_decide; done || lia.
  - unfold InMemoryCache_Get, time_Now_Unix. simpl. rewrite Hdecode.
    destruct (Z.gtb_spec (unix_now w) (GetExpireTime R `quot` 1000));
      case_decide; done || lia.
Qed.

(** A record that expires after the second [now] is not expired at [now]. *)
Lemma future_not_expired (expireTime now : Z) :
  (now * 1000 < expireTime)%Z → (now >? expireTime `quot` 1000)%Z = false.
Proof.
  intros H. destruct (Z.gtb_spec now (expireTime `quot` 1000)) as [Hgt|]; [|done].
  exfalso.
  destruct (Z.le_gt_cases 0 expireTime) as [Hpos|Hneg].
  - rewrite Z.quot_div_nonneg in Hgt by lia.
    pose proof (Z.mul_div_le expireTime 1000 ltac:(lia)).
    pose proof (Z.mod_pos_bound expireTime 1000 ltac:(lia)).
    pose proof (Z.div_mod expireTime 1000 ltac:(lia)). lia.
  - pose proof (Z.quot_rem' expireTime 1000) as Hqr.
    pose proof (Z.rem_nonpos expireTime 1000 ltac:(lia) ltac:(lia)).
    lia.
Qed.

Lemma InMemoryCache_Set_Get bytes d R w (now : Z) (c : InMemoryCache) :
  json_Marshal R = (bytes, None) →
  json_Unmarshal bytes d = (R, None) →
  (now * 1000 < GetExpireTime R)%Z →
  ∃ c', InMemoryCache_Set c R w = ((None, c'), w)
        ∧ InMemoryCache_Get c' d (set_unix_now now w) = ((None, R), set_unix_now now w).
Proof.
  intros Hencode Hdecode Hfuture. eexists. split.
  - unfold InMemoryCache_Set. by rewrite Hencode.
  - unfold InMemoryCache_Get, time_Now_Unix. simpl.
    by rewrite Hdecode, future_not_expired.
Qed.

Lemma FileCache_Set_Get bytes d R w (now : Z) (c : FileCache) :
  json_Marshal R = (bytes, None) →
  json_Unmarshal bytes d = (R, None) →
  (now * 1000 < GetExpireTime R)%Z →
  Path c ∉ write_protected w →
  ∃ w', FileCache_Set c R w = (None, w')
        ∧ FileCache_Get c d (set_unix_now now w') = ((None, R), set_unix_now now w').
Proof.
  intros Hencode Hdecode Hfuture Hwritable. eexists. split.
  - unfold FileCache_Set, ioutil_WriteFile. rewrite Hencode.
    by rewrite decide_False.
  - unfold FileCache_Get, ioutil_ReadFile, time_Now_Unix. simpl.
    rewrite lookup_insert_eq, Hdecode.
    by rewrite future_not_expired.
Qed.

(** C4 (amended).  Let [R] be a record that the codec encodes and decodes
    back into the destination [d] without loss, and that expires after the
    time of the read.  An [InMemoryCache] set to [R] gives [R] back; so does
    a [FileCache] when the write of its file succeeds, [Set] reporting no
    error in either case. *)
Theorem Set_then_Get_roundtrip bytes d R w (now : Z) :
  json_Marshal R = (bytes, None) →
  json_Unmarshal bytes d = (R, None) →
  (now * 1000 < GetExpireTime R)%Z →
  (∀ c : InMemoryCache,
     ∃ c', InMemoryCache_Set c R w = ((None, c'), w)
           ∧ InMemoryCache_Get c' d (set_unix_now now w) = ((None, R), set_unix_now now w))
  ∧ (∀ c : FileCache, Path c ∉ write_protected w →
       ∃ w', FileCache_Set c R w = (None, w')
             ∧ FileCache_Get c d (set_unix_now now w') = ((None, R), set_unix_now now w')).
Proof.
  intros Hencode Hdecode Hfuture. split.
  - intros c. by apply InMemoryCache_Set_Get with bytes.
  - intros c Hwritable. by apply FileCache_Set_Get with bytes.
Qed.

End cache_properties.

(** ** Token refresh *)

Section refresh.
Context {C : Type} `{!Cache AccessTokenResponse C}.
Context `{!json_Marshaler (gmap string string), !json_Unmarshaler AccessTokenResponse}.
Implicit Types (c : EzvizClient C) (w : World) (res : AccessTokenResponse).

(** C1.  When [Get] of the cache of the client succeeds,
    [RefreshAccessToken] makes the token of the cached record the token of
    the client and returns no error, in the world [Get] left: nothing has
    been sent. *)
Theorem RefreshAccessToken_cache_hit c w res w' :
  Cache_Get (EzvizClient_Cache c) zero_AccessTokenResponse w = ((None, res), w') →
  goezviz.RefreshAccessToken c w =
    (Ret (None, set_AccessToken (AccessToken_AccessToken (Data res)) c), w')
  ∧ EzvizClient_AccessToken (set_AccessToken (AccessToken_AccessToken (Data res)) c)
    = AccessToken_AccessToken (Data res)
  ∧ requests w' = requests w.
Proof.
  intros Hget. split; [|split; [done|]].
  - unfold goezviz.RefreshAccessToken. unfold_M. by rewrite Hget.
  - pose proof (Cache_Get_requests (EzvizClient_Cache c) zero_AccessTokenResponse w) as H.
    by rewrite Hget in H.
Qed.

(** C3.  When [Get] of the cache fails, [RefreshAccessToken] sends exactly
    one request, the authentication call.  When the call returns no error,
    the token of its response becomes the token of the client, the whole
    response record is handed to [Set] of the cache, and what [Set] returns,
    error or not, is the result; the client holds the new token either
    way. *)
Theorem RefreshAccessToken_cache_miss c w (e0 : error) res0 w0 :
  Cache_Get (EzvizClient_Cache c) zero_AccessTokenResponse w = ((Some e0, res0), w0) →
  (∃ request,
     requests (goezviz.RefreshAccessToken c w).2 = requests w ++ [request]
     ∧ Method request = "POST"
     ∧ Body request = Some (json_Marshal (auth_params c)).1)
  ∧ (∀ res1 w1,
       goezviz.httpRPC c "/lapp/token/get" None (Some (auth_params c)) res0 w0
       = (Ret (None, res1), w1) →
       ∀ err cache w2,
         Cache_Set (EzvizClient_Cache c) res1 w1 = ((err, cache), w2) →
         goezviz.RefreshAccessToken c w =
           (Ret (err, set_Cache cache
                        (set_AccessToken (AccessToken_AccessToken (Data res1)) c)),
            w2)).
Proof.
  intros Hget.
  pose proof (Cache_Get_requests (EzvizClient_Cache c) zero_AccessTokenResponse w) as Hlog0.
  rewrite Hget in Hlog0. simpl in Hlog0.
  split.
  - destruct (httpRPC_requests c "/lapp/token/get" None (Some (auth_params c)) res0 w0)
      as [params' Hlog1].
    exists (goezviz.newRequest "/lapp/token/get" params' (Some (auth_params c)) w0).
    split; [|apply newRequest_with_data].
    unfold goezviz.RefreshAccessToken. unfold_M. rewrite Hget.
    fold (auth_params c).
    destruct (goezviz.httpRPC _ _ _ _ res0 w0) as [[[[e|] res1]|msg] w1]; simpl in *.
    + by rewrite Hlog1, Hlog0.
    + pose proof (Cache_Set_requests (EzvizClient_Cache c) res1 w1) as Hlog2.
      destruct (Cache_Set _ res1 w1) as [[err cache] w2]. simpl in *.
      by rewrite Hlog2, Hlog1, Hlog0.
    + by rewrite Hlog1, Hlog0.
  - intros res1 w1 Hrpc err cache w2 Hset.
    unfold goezviz.RefreshAccessToken. unfold_M. rewrite Hget.
    fold (auth_params c). rewrite Hrpc. simpl. by rewrite Hset.
Qed.

(** C8.  When [Get] of the cache fails and the authentication call returns
    an error, [RefreshAccessToken] returns that very error and leaves the
    client, its token included, as it was. *)
Theorem RefreshAccessToken_rpc_failure c w (e0 e : error) res0 w0 res1 w1 :
  Cache_Get (EzvizClient_Cache c) zero_AccessTokenResponse w = ((Some e0, res0), w0) →
  goezviz.httpRPC c "/lapp/token/get" None (Some (auth_params c)) res0 w0
  = (Ret (Some e, res1), w1) →
  goezviz.RefreshAccessToken c w = (Ret (Some e, c), w1).
Proof.
  intros Hget Hrpc.
  unfold goezviz.RefreshAccessToken. unfold_M. rewrite Hget.
  fold (auth_params c). by rewrite Hrpc.
Qed.

End refresh.

(** ** The second variant

    The dispatcher and the refresh of the second variant differ from the
    first in the request they build only; the properties carry over. *)

Section query_variant.
Context {C D R : Type} `{!Cache AccessTokenResponse C}.
Context `{!json_Unmarshaler R, !Unmarshallable R, !json_Unmarshaler AccessTokenResponse}.
Implicit Types (c : EzvizClient C) (params : url_Values) (requestData : option D).
Implicit Types (responseData : R) (w : World) (resp : http_Response).
Implicit Types (res : AccessTokenResponse).

Lemma query_httpRequest_json_code_decides
    c path params requestData responseData w resp (base : R → OAPIResponse) :
  (∀ r, checkError r = OAPIResponse_checkError (base r)) →
  network w (goezviz_query.newRequest path params w) = (resp, None) →
  StatusCode resp = 200%Z →
  String.prefix typeJSON (http_Header_Get (RespHeader resp) "Content-Type") = true →
  read_error (RespBody resp) = None →
  let decoded := (json_Unmarshal (content (RespBody resp)) responseData).1 in
  goezviz_query.httpRequest c path params requestData responseData w =
    (Ret (if decide (Code (base decoded) = "200") then None
          else Some (errors_New (Code (base decoded) +:+ ": " +:+ Msg (base decoded))),
          decoded),
     sent (goezviz_query.newRequest path params w) w).
Proof.
  intros Hbase Hnet Hstatus Hjson Hread decoded. subst decoded.
  run_httpRequest. rewrite Hnet.
  case_decide; [done|].
  rewrite typeJSON_test, Hjson, Hread.
  destruct (json_Unmarshal _ _) as [decoded e]. simpl.
  rewrite Hbase. unfold OAPIResponse_checkError, fmt_Errorf_s_s.
  repeat case_decide; done.
Qed.

Lemma query_httpRequest_status_short_circuit
    c path params requestData responseData w resp :
  network w (goezviz_query.newRequest path params w) = (resp, None) →
  StatusCode resp ≠ 200%Z →
  goezviz_query.httpRequest c path params requestData responseData w =
    (Ret (Some (errors_New ("Server error: " +:+ Status resp)), responseData),
     sent (goezviz_query.newRequest path params w) w).
Proof.
  intros Hnet Hstatus.
  run_httpRequest. rewrite Hnet.
  by case_decide.
Qed.

Lemma query_httpRequest_decode_error_dropped
    c path params requestData responseData w resp decoded (e : error) :
  network w (goezviz_query.newRequest path params w) = (resp, None) →
  StatusCode resp = 200%Z →
  String.prefix typeJSON (http_Header_Get (RespHeader resp) "Content-Type") = true →
  read_error (RespBody resp) = None →
  json_Unmarshal (content (RespBody resp)) responseData = (decoded, Some e) →
  goezviz_query.httpRequest c path params requestData responseData w =
    (Ret (checkError decoded, decoded), sent (goezviz_query.newRequest path params w) w).
Proof.
  intros Hnet Hstatus Hjson Hread Hdecode.
  run_httpRequest. rewrite Hnet.
  case_decide; [done|].
  by rewrite typeJSON_test, Hjson, Hread, Hdecode.
Qed.

Lemma query_httpRequest_stream_needs_writer
    c path params requestData responseData w resp :
  network w (goezviz_query.newRequest path params w) = (resp, None) →
  StatusCode resp = 200%Z →
  String.prefix typeJSON (http_Header_Get (RespHeader resp) "Content-Type") = false →
  let w1 := sent (goezviz_query.newRequest path params w) w in
  goezviz_query.httpRequest c path params requestData responseData w =
    match getWriter responseData with
    | Some h =>
        (Ret (checkError responseData, responseData),
         written h (content (RespBody resp)) w1)
    | None =>
        if decide (content (RespBody resp) = EmptyString)
        then (Ret (checkError responseData, responseData), w1)
        else (Panic nil_dereference, w1)
    end.
Proof.
  intros Hnet Hstatus Hjson w1. subst w1.
  run_httpRequest. rewrite Hnet.
  case_decide; [done|].
  rewrite typeJSON_test, Hjson.
  unfold io_Copy, written.
  destruct (getWriter responseData); [done|].
  by case_decide.
Qed.

Lemma query_RefreshAccessToken_cache_hit c w res w' :
  Cache_Get (EzvizClient_Cache c) zero_AccessTokenResponse w = ((None, res), w') →
  goezviz_query.RefreshAccessToken c w =
    (Ret (None, set_AccessToken (AccessToken_AccessToken (Data res)) c), w')
  ∧ requests w' = requests w.
Proof.
  intros Hget. split.
  - unfold goezviz_query.RefreshAccessToken. unfold_M. by rewrite Hget.
  - pose proof (Cache_Get_requests (EzvizClient_Cache c) zero_AccessTokenResponse w) as H.
    by rewrite Hget in H.
Qed.

Lemma query_RefreshAccessToken_cache_miss c w (e0 : error) res0 w0 :
  Cache_Get (EzvizClient_Cache c) zero_AccessTokenResponse w = ((Some e0, res0), w0) →
  (∃ request,
     requests (goezviz_query.RefreshAccessToken c w).2 = requests w ++ [request]
     ∧ Method request = "POST" ∧ Body request = None)
  ∧ (∀ res1 w1,
       goezviz_query.httpRPC (D := unit) c "/lapp/token/get" (Some (auth_values c)) None
         res0 w0 = (Ret (None, res1), w1) →
       ∀ err cache w2,
         Cache_Set (EzvizClient_Cache c) res1 w1 = ((err, cache), w2) →
         goezviz_query.RefreshAccessToken c w =
           (Ret (err, set_Cache cache
                        (set_AccessToken (AccessToken_AccessToken (Data res1)) c)),
            w2)).
Proof.
  intros Hget.
  pose proof (Cache_Get_requests (EzvizClient_Cache c) zero_AccessTokenResponse w) as Hlog0.
  rewrite Hget in Hlog0. simpl in Hlog0.
  split.
  - destruct (query_httpRPC_requests (D := unit) c "/lapp/token/get"
                (Some (auth_values c)) None res0 w0) as [params' Hlog1].
    exists (goezviz_query.newRequest "/lapp/token/get" params' w0).
    split; [|done].
    unfold goezviz_query.RefreshAccessToken. unfold_M. rewrite Hget.
    fold (auth_values c).
    destruct (goezviz_query.httpRPC _ _ _ _ res0 w0) as [[[[e|] res1]|msg] w1]; simpl in *.
    + by rewrite Hlog1, Hlog0.
    + pose proof (Cache_Set_requests (EzvizClient_Cache c) res1 w1) as Hlog2.
      destruct (Cache_Set _ res1 w1) as [[err cache] w2]. simpl in *.
      by rewrite Hlog2, Hlog1, Hlog0.
    + by rewrite Hlog1, Hlog0.
  - intros res1 w1 Hrpc err cache w2 Hset.
    unfold goezviz_query.RefreshAccessToken. unfold_M. rewrite Hget.
    fold (auth_values c). rewrite Hrpc. simpl. by rewrite Hset.
Qed.

Lemma query_RefreshAccessToken_rpc_failure c w (e0 e : error) res0 w0 res1 w1 :
  Cache_Get (EzvizClient_Cache c) zero_AccessTokenResponse w = ((Some e0, res0), w0) →
  goezviz_query.httpRPC (D := unit) c "/lapp/token/get" (Some (auth_values c)) None
    res0 w0 = (Ret (Some e, res1), w1) →
  goezviz_query.RefreshAccessToken c w = (Ret (Some e, c), w1).
Proof.
  intros Hget Hrpc.
  unfold goezviz_query.RefreshAccessToken. unfold_M. rewrite Hget.
  fold (auth_values c). by rewrite Hrpc.
Qed.

End query_variant.

(** ** The reference codec *)

Section reference_codec.
Import encoding_json.

Ltac simpl_app := cbv [String.append]; fold String.append.

Lemma str_app_assoc (a b c : string) : (a +:+ b) +:+ c = a +:+ (b +:+ c).
Proof. induction a as [|x a IH]; simpl_app; congruence. Qed.

Lemma str_length_app (a b : string) :
  String.length (a +:+ b) = (String.length a + String.length b)%nat.
Proof. induction a as [|x a IH]; simpl_app; simpl; congruence. Qed.

Lemma unquote_encode_ascii (c : ascii) (f : nat) (X : string) :
  (N_of_ascii c <? 128)%N = true →
  unquote (S f) (encode_ascii c +:+ X) = emit (String c EmptyString) (unquote f X).
Proof.
  destruct c as [[] [] [] [] [] [] [] []]; intros H;
    first [ by vm_compute in H | reflexivity ].
Qed.

Lemma encode_ascii_length (c : ascii) : (1 <= String.length (encode_ascii c))%nat.
Proof.
  destruct c as [[] [] [] [] [] [] [] []]; vm_compute; lia.
Qed.

Lemma high_byte_plain (c : ascii) :
  (N_of_ascii c <? 128)%N = false →
  ch_eq c dquote = false ∧ ch_eq c backslash = false ∧ (N_of_ascii c <? 32)%N = false.
Proof.
  destruct c as [[] [] [] [] [] [] [] []]; intros H;
    first [ by vm_compute in H | by vm_compute ].
Qed.

Ltac split_if_in H :=
  repeat match type of H with
         | context [if ?b then _ else _] => destruct b eqn:?
         end.

Ltac rewrite_tests :=
  repeat match goal with
         | E : ?b = _ |- context [?b] => rewrite E
         end.

Lemma substring_0_0 (s : string) : substring 0 0 s = EmptyString.
Proof. by destruct s. Qed.

Lemma utf8_size_take (s X : string) (k : nat) :
  utf8_size s = S k →
  utf8_size (take (S k) s +:+ X) = S k
  ∧ take (S k) (take (S k) s +:+ X) = take (S k) s
  ∧ drop (S k) (take (S k) s +:+ X) = X
  ∧ take (S k) s +:+ drop (S k) s = s
  ∧ String.length (take (S k) s) = S k.
Proof.
  intros H.
  destruct s as [|c0 [|c1 [|c2 [|c3 s]]]]; unfold utf8_size in H; cbv zeta in H;
    split_if_in H; try discriminate H; injection H as <-.
  all: unfold utf8_size, take; simpl; simpl_app; cbv zeta; rewrite_tests;
    rewrite ?substring_0_0; simpl_app; done.
Qed.

Lemma unquote_u2028 (f : nat) (X : string) :
  unquote (S f) (esc "u2028" +:+ X) = emit u2028 (unquote f X).
Proof. reflexivity. Qed.

Lemma unquote_u2029 (f : nat) (X : string) :
  unquote (S f) (esc "u2029" +:+ X) = emit u2029 (unquote f X).
Proof. reflexivity. Qed.

Lemma unquote_rune (c : ascii) (r X : string) (k f : nat) :
  (N_of_ascii c <? 128)%N = false →
  utf8_size (String c r) = S k →
  unquote (S f) (take (S k) (String c r) +:+ X)
  = emit (take (S k) (String c r)) (unquote f X).
Proof.
  intros Hc Hsize.
  destruct (utf8_size_take _ X _ Hsize) as (Hsz & Htake & Hdrop & _ & _).
  destruct (high_byte_plain c Hc) as (Hq & Hb & Hctl).
  change (take (S k) (String c r)) with (String c (substring 0 k r)) in *.
  revert Hsz Htake Hdrop. simpl_app. intros Hsz Htake Hdrop.
  cbn [unquote]. by rewrite Hq, Hb, Hctl, Hc, Hsz, Htake, Hdrop.
Qed.

Lemma emit_Some (x t rest : string) : emit x (Some (t, rest)) = Some (x +:+ t, rest).
Proof. reflexivity. Qed.

Lemma unquote_encode_chars (n : nat) :
  ∀ (s rest : string) (f : nat),
    well_formed n s = true →
    (String.length (encode_chars n s) < f)%nat →
    unquote f (encode_chars n s +:+ String dquote rest) = Some (s, rest).
Proof.
  induction n as [|n IH]; intros s rest f Hwf Hf.
  - destruct s; [|done]. destruct f; [cbv in Hf; lia|]. reflexivity.
  - destruct s as [|c r].
    { destruct f; [cbv in Hf; lia|]. reflexivity. }
    cbn [well_formed encode_chars] in *.
    destruct (N_of_ascii c <? 128)%N eqn:Hc.
    + rewrite str_length_app in Hf. pose proof (encode_ascii_length c).
      destruct f as [|f]; [lia|].
      rewrite str_app_assoc, unquote_encode_ascii by done.
      rewrite IH; [reflexivity|done|lia].
    + destruct (utf8_size (String c r)) as [|k] eqn:Hsize; [done|].
      destruct (utf8_size_take _ EmptyString _ Hsize) as (_ & _ & _ & Hsplit & Hlen).
      fold u2028 u2029 in *.
      destruct (String.eqb_spec (take (S k) (String c r)) u2028) as [H28|_];
        [|destruct (String.eqb_spec (take (S k) (String c r)) u2029) as [H29|_]];
        rewrite str_length_app in Hf; rewrite str_app_assoc;
        (destruct f as [|f]; [lia|]).
      * change (String.length (esc "u2028")) with 6%nat in Hf.
        rewrite unquote_u2028, IH, emit_Some; [|done|lia].
        by rewrite <- H28, Hsplit.
      * change (String.length (esc "u2029")) with 6%nat in Hf.
        rewrite unquote_u2029, IH, emit_Some; [|done|lia].
        by rewrite <- H29, Hsplit.
      * rewrite unquote_rune, IH, emit_Some; [|done|lia|done|done].
        by rewrite Hsplit.
Qed.

(** *** Numbers *)

Lemma digit_char (m : N) :
  (m < 10)%N →
  is_digit (ascii_of_N (48 + m)) = true
  ∧ (N_of_ascii (ascii_of_N (48 + m)) - 48)%N = m
  ∧ ch_eq (ascii_of_N (48 + m)) "0" = (m =? 0)%N.
Proof.
  intros Hm.
  destruct m as [|p]; [by vm_compute|].
  do 4 (destruct p as [p|p|]; try by vm_compute); lia.
Qed.

Lemma digit_not_punct (c : ascii) :
  is_digit c = true →
  ch_eq c "{" = false ∧ ch_eq c "[" = false ∧ ch_eq c dquote = false
  ∧ ch_eq c "-" = false.
Proof.
  destruct c as [[] [] [] [] [] [] [] []]; intros H;
    first [ by vm_compute in H | by vm_compute ].
Qed.

Lemma span_digits_cons (c : ascii) (d X : string) :
  is_digit c = true →
  span_digits (d +:+ X) = (d, X) →
  span_digits (String c d +:+ X) = (String c d, X).
Proof.
  intros Hc Hd. simpl_app. cbn [span_digits]. by rewrite Hc, Hd.
Qed.

Lemma digits_spec (f : nat) :
  ∀ (n : N) (acc X : string),
    (0 < n < 2 ^ N.of_nat f)%N →
    span_digits (acc +:+ X) = (acc, X) →
    ∃ c d (p : N),
      digits f n acc = String c d
      ∧ is_digit c = true ∧ ch_eq c "0" = false
      ∧ span_digits (String c d +:+ X) = (String c d, X)
      ∧ (n < p)%N
      ∧ ∀ k, decimal (String c d) k = decimal acc (k * p + n)%N.
Proof.
  induction f as [|f IH]; intros n acc X Hn Hacc.
  { change (2 ^ N.of_nat 0)%N with 1%N in Hn. lia. }
  cbn [digits].
  pose proof (N.div_mod' n 10) as Hdm.
  pose proof (N.mod_lt n 10 ltac:(lia)) as Hlt.
  destruct (digit_char (n mod 10) Hlt) as (Hdig & Hval & Hzero).
  destruct (N.eqb_spec (n / 10) 0) as [Hq|Hq].
  - exists (ascii_of_N (48 + n mod 10)), acc, 10%N.
    split; [done|]. split; [done|]. split.
    { rewrite Hzero. apply N.eqb_neq. lia. }
    split; [by apply span_digits_cons|]. split; [lia|].
    intros k. cbn [decimal]. rewrite Hdig, Hval. f_equal. lia.
  - destruct (IH (n / 10)%N (String (ascii_of_N (48 + n mod 10)) acc) X)
      as (c & d & p & Heq & Hc & Hc0 & Hspan & Hp & Hdec).
    + rewrite Nat2N.inj_succ, N.pow_succ_r' in Hn. lia.
    + by apply span_digits_cons.
    + exists c, d, (p * 10)%N.
      split; [done|]. split; [done|]. split; [done|]. split; [done|].
      split; [lia|].
      intros k. rewrite Hdec. cbn [decimal]. rewrite Hdig, Hval. f_equal. lia.
Qed.

Lemma str_app_nil_r (a : string) : a +:+ EmptyString = a.
Proof. induction a as [|x a IH]; simpl_app; congruence. Qed.

Lemma scan_number_digits (c : ascii) (d Y : string) :
  is_digit c = true →
  ch_eq c "0" = false →
  span_digits (d +:+ String "}" Y) = (d, String "}" Y) →
  scan_number (String c (d +:+ String "}" Y)) = Some (String c d, String "}" Y)
  ∧ scan_number (String "-" (String c (d +:+ String "}" Y)))
    = Some (String "-" (String c d), String "}" Y).
Proof.
  intros Hc Hc0 Hspan.
  destruct (digit_not_punct c Hc) as (_ & _ & _ & Hminus).
  unfold scan_number.
  rewrite Hminus. change (ch_eq "-" "-") with true. cbv iota beta.
  rewrite Hc, Hc0, Hspan. cbv iota beta.
  change (ch_eq "}" ".") with false.
  change (ch_eq "}" "e" || ch_eq "}" "E") with false.
  cbv iota beta. simpl_app. by rewrite str_app_nil_r.
Qed.

Lemma encode_int_spec (z : Z) (Y : string) :
  (- 2 ^ 63 <= z < 2 ^ 63)%Z →
  ParseInt64 (encode_int z) = Some z
  ∧ ∀ f, value (S f) (encode_int z +:+ String "}" Y)
         = Some (JNumber (encode_int z), String "}" Y).
Proof.
  intros Hrange.
  destruct (Z.eq_dec z 0%Z) as [->|Hz]; [by split|].
  set (n := Z.to_N (Z.abs z)).
  assert (0 < n)%N as Hn by lia.
  destruct (digits_spec (S (N.to_nat (N.log2 n))) n EmptyString (String "}" Y))
    as (c & d & p & Heq & Hc & Hc0 & Hspan & Hp & Hdec).
  { split; [done|]. rewrite Nat2N.inj_succ, N2Nat.id.
    by apply N.log2_spec. }
  { reflexivity. }
  assert (span_digits (d +:+ String "}" Y) = (d, String "}" Y)) as Hspan'.
  { revert Hspan. simpl_app. cbn [span_digits]. rewrite Hc.
    destruct (span_digits _) as [d' rest]. intros [= -> H]. by rewrite H. }
  destruct (scan_number_digits c d Y Hc Hc0 Hspan') as [Hpos Hneg].
  destruct (digit_not_punct c Hc) as (Hbrace & Hbracket & Hquote & Hminus).
  assert (decimal (String c d) 0 = Some n) as Hdecimal.
  { by rewrite Hdec. }
  unfold encode_int. fold n. rewrite Heq.
  destruct (Z.ltb_spec z 0%Z) as [Hlt|Hge].
  - split.
    + unfold ParseInt64. change (ch_eq "-" "-") with true. cbv iota beta.
      rewrite Hdecimal.
      replace (- Z.of_N n)%Z with z by lia.
      by rewrite (proj2 (andb_true_iff _ _)) by (split; [apply Z.leb_le|apply Z.ltb_lt]; lia).
    + intros f. simpl_app. cbn [value].
      change (ch_eq "-" "{") with false. change (ch_eq "-" "[") with false.
      change (ch_eq "-" dquote) with false. change (ch_eq "-" "-") with true.
      cbv iota beta. cbn [orb]. by rewrite Hneg.
  - split.
    + unfold ParseInt64. rewrite Hminus. rewrite Hdecimal.
      replace (Z.of_N n) with z by lia.
      by rewrite (proj2 (andb_true_iff _ _)) by (split; [apply Z.leb_le|apply Z.ltb_lt]; lia).
    + intros f. simpl_app. cbn [value].
      rewrite Hbrace, Hbracket, Hquote, Hminus, Hc. cbn [orb]. by rewrite Hpos.
Qed.

(** *** Documents *)

Lemma encode_string_app (s rest : string) :
  encode_string s +:+ rest
  = String dquote (encode_chars (String.length s) s +:+ String dquote rest).
Proof.
  unfold encode_string, quoted. simpl_app. by rewrite str_app_assoc.
Qed.

Lemma unquote_body (s rest : string) :
  utf8_Valid s = true →
  unquote (S (String.length (encode_chars (String.length s) s +:+ String dquote rest)))
          (encode_chars (String.length s) s +:+ String dquote rest)
  = Some (s, rest).
Proof.
  intros Hvalid. apply unquote_encode_chars; [done|].
  rewrite str_length_app. lia.
Qed.

Ltac eval_tests :=
  repeat match goal with
         | |- context [ch_eq ?a ?b] =>
             let v := eval vm_compute in (ch_eq a b) in
             lazymatch v with true => idtac | false => idtac end;
             change (ch_eq a b) with v
         | |- context [is_space ?a] =>
             let v := eval vm_compute in (is_space a) in
             lazymatch v with true => idtac | false => idtac end;
             change (is_space a) with v
         end;
  cbv iota beta.

Ltac step := cbn [members]; repeat (progress (cbn [skip_ws]; eval_tests)).

Lemma value_string (f : nat) (v rest : string) :
  utf8_Valid v = true →
  value (S f) (encode_string v +:+ rest) = Some (JString v, rest).
Proof.
  intros Hv. rewrite encode_string_app. cbn [value]. eval_tests.
  by rewrite unquote_body.
Qed.

Lemma skip_ws_encode_string (v rest : string) :
  skip_ws (encode_string v +:+ rest) = encode_string v +:+ rest.
Proof. rewrite encode_string_app. cbn [skip_ws]. by eval_tests. Qed.

Lemma skip_ws_encode_int (z : Z) (rest : string) :
  skip_ws (encode_int z +:+ rest) = encode_int z +:+ rest.
Proof.
  unfold encode_int. pose proof (N.mod_lt (Z.to_N (Z.abs z)) 10 ltac:(lia)) as Hlt.
  destruct (digit_char _ Hlt) as (Hdig & _ & _).
  assert (∀ f n acc, (∃ c r, acc = String c r ∧ is_space c = false) ∨ acc = EmptyString →
          ∃ c r, digits (S f) n acc = String c r ∧ is_space c = false) as Hdigits.
  { clear. induction f as [|f IH]; intros n acc Hacc.
    - cbn [digits].
      pose proof (N.mod_lt n 10 ltac:(lia)) as Hlt.
      destruct (digit_char _ Hlt) as (Hdig & _ & _).
      assert (is_space (ascii_of_N (48 + n mod 10)) = false) as Hsp.
      { revert Hdig. generalize (ascii_of_N (48 + n mod 10)).
        intros [[] [] [] [] [] [] [] []] H; first [done | by vm_compute in H]. }
      case_match; eauto.
    - cbn [digits].
      pose proof (N.mod_lt n 10 ltac:(lia)) as Hlt.
      destruct (digit_char _ Hlt) as (Hdig & _ & _).
      assert (is_space (ascii_of_N (48 + n mod 10)) = false) as Hsp.
      { revert Hdig. generalize (ascii_of_N (48 + n mod 10)).
        intros [[] [] [] [] [] [] [] []] H; first [done | by vm_compute in H]. }
      case_match; [eauto|]. apply IH. eauto. }
  destruct (Hdigits (N.to_nat (N.log2 (Z.to_N (Z.abs z)))) (Z.to_N (Z.abs z)) EmptyString)
    as (c & r & -> & Hc); [by right|].
  case_match; simpl_app; cbn [skip_ws]; eval_tests; [done|]. by rewrite Hc.
Qed.

Lemma value_object (f : nat) (k rest : string) :
  value (S f) ("{" +:+ encode_string k +:+ rest)
  = match members f (encode_string k +:+ rest) with
    | Some (l, rest) => Some (JObject l, rest)
    | None => None
    end.
Proof.
  rewrite encode_string_app. simpl_app. cbn [value skip_ws]. eval_tests. reflexivity.
Qed.

(** A member whose value is a string, followed by another member. *)
Lemma members_string_comma (f : nat) (k v k' rest : string) :
  utf8_Valid k = true → utf8_Valid v = true →
  members (S (S f))
    (encode_string k +:+ ":" +:+ encode_string v +:+ "," +:+ encode_string k' +:+ rest)
  = match members (S f) (encode_string k' +:+ rest) with
    | Some (l, rest) => Some ((k, JString v) :: l, rest)
    | None => None
    end.
Proof.
  intros Hk Hv.
  rewrite (encode_string_app k'), (encode_string_app k).
  step. rewrite (unquote_body k) by done.
  simpl_app. step. rewrite skip_ws_encode_string, value_string by done.
  simpl_app. step. reflexivity.
Qed.

(** The last member of an object, whose value is a number. *)
Lemma members_int_close (f : nat) (k tail : string) (z : Z) :
  utf8_Valid k = true → (- 2 ^ 63 <= z < 2 ^ 63)%Z →
  members (S (S f)) (encode_string k +:+ ":" +:+ encode_int z +:+ "}" +:+ tail)
  = Some ([(k, JNumber (encode_int z))], tail).
Proof.
  intros Hk Hz.
  rewrite (encode_string_app k). step. rewrite (unquote_body k) by done.
  simpl_app. step.
  rewrite skip_ws_encode_int, (proj2 (encode_int_spec z tail Hz)).
  step. reflexivity.
Qed.

(** The last member of an object, whose value is an object. *)
Lemma members_object_close (f : nat) (k k' rest tail : string)
    (l : list (string * json)) :
  utf8_Valid k = true →
  members f (encode_string k' +:+ rest) = Some (l, "}" +:+ tail) →
  members (S (S f)) (encode_string k +:+ ":" +:+ "{" +:+ encode_string k' +:+ rest)
  = Some ([(k, JObject l)], tail).
Proof.
  intros Hk Hinner.
  rewrite (encode_string_app k). step. rewrite (unquote_body k) by done.
  simpl_app. step.
  change (String "{" (encode_string k' +:+ rest)) with ("{" +:+ encode_string k' +:+ rest).
  rewrite value_object, Hinner. simpl_app. step. reflexivity.
Qed.

Lemma parse_Marshal_AccessTokenResponse (r : AccessTokenResponse) :
  representable r →
  parse (Marshal_AccessTokenResponse r).1
  = Some (JObject
            [("code", JString (Code (AccessTokenResponse_OAPIResponse r)));
             ("msg", JString (Msg (AccessTokenResponse_OAPIResponse r)));
             ("data", JObject
                        [("accessToken", JString (AccessToken_AccessToken (Data r)));
                         ("expireTime", JNumber (encode_int (ExpireTime (Data r))))])]).
Proof.
  intros (Hcode & Hmsg & Htoken & Hexpire).
  destruct r as [[code msg] [token expire]]. cbn [Code Msg AccessToken_AccessToken
    ExpireTime Data AccessTokenResponse_OAPIResponse] in *.
  unfold Marshal_AccessTokenResponse, encode_AccessToken, encode_OAPIResponse_members,
    encode_object, member. cbn [fst app join_comma
    AccessTokenResponse_OAPIResponse Data Code Msg AccessToken_AccessToken ExpireTime].
  rewrite !str_app_assoc.
  set (doc := "{" +:+ _).
  assert (∃ f, S (String.length doc) = S (S (S (S (S (S (S (S f)))))))) as [f Hf].
  { subst doc. rewrite !str_length_app.
    change (String.length "{") with 1%nat.
    change (String.length (encode_string "code")) with 6%nat.
    eexists. simpl. reflexivity. }
  unfold parse. rewrite Hf. clear Hf. subst doc.
  assert (∀ X, skip_ws ("{" +:+ X) = "{" +:+ X) as -> by done.
  rewrite value_object.
  rewrite members_string_comma by done.
  rewrite members_string_comma by done.
  erewrite members_object_close; [|done|].
  2: { rewrite members_string_comma by done.
       rewrite members_int_close by done. reflexivity. }
  reflexivity.
Qed.

(** The reference codec gives back every representable record, whatever the
    destination held. *)
Theorem Unmarshal_Marshal_AccessTokenResponse (r d : AccessTokenResponse) :
  representable r →
  Unmarshal_AccessTokenResponse (Marshal_AccessTokenResponse r).1 d = (r, None).
Proof.
  intros Hr.
  unfold Unmarshal_AccessTokenResponse, Unmarshal_struct.
  rewrite parse_Marshal_AccessTokenResponse by done.
  destruct Hr as (_ & _ & _ & Hexpire).
  destruct (encode_int_spec (ExpireTime (Data r)) EmptyString Hexpire) as [Hparse _].
  destruct r as [[code msg] [token expire]], d as [[code0 msg0] [token0 expire0]].
  cbn [Code Msg AccessToken_AccessToken ExpireTime Data
       AccessTokenResponse_OAPIResponse] in *.
  cbv -[encode_int ParseInt64]. cbv -[encode_int ParseInt64] in Hparse.
  by rewrite Hparse.
Qed.

End reference_codec.

(** ** The program on concrete inputs *)

Section examples.
#[local] Existing Instances map_Marshaler OAPIResponse_Marshaler OAPIResponse_Unmarshaler
  AccessTokenResponse_Marshaler AccessTokenResponse_Unmarshaler.

(** A valid record in the cache file: the token is adopted and the network,
    which would refuse the connection, is not used. *)
Lemma cached_token_is_reused :
  let c := NewEzvizClient "K" "S" in
  let w := set_files {[ "ezviz_K.auth_file" := token_document ]}
                     (world 1700000000 unreachable) in
  Cache_Get (EzvizClient_Cache c) zero_AccessTokenResponse w = ((None, token_record), w)
  ∧ goezviz.RefreshAccessToken c w = (Ret (None, set_AccessToken "TOK" c), w)
  ∧ requests w = [].
Proof.
  intros c w.
  assert (Cache_Get (EzvizClient_Cache c) zero_AccessTokenResponse w
          = ((None, token_record), w)) as Hget by (vm_compute; reflexivity).
  destruct (RefreshAccessToken_cache_hit c w token_record w Hget) as (Hrun & _ & _).
  split; [exact Hget|]. split; [exact Hrun|reflexivity].
Defined.

(** One second after the second of its expiry, the record is refused. *)
Lemma expired_record_is_refused :
  let w := world 2000000000 unreachable in
  json_Unmarshal token_document zero_AccessTokenResponse = (token_record, None)
  ∧ InMemoryCache_Get {| data := token_document |} zero_AccessTokenResponse w
    = ((Some err_expired, token_record), w).
Proof.
  intros w.
  assert (json_Unmarshal token_document zero_AccessTokenResponse = (token_record, None))
    as Hdecode by (vm_compute; reflexivity).
  split; [exact Hdecode|].
  exact (proj2 (Get_expired_iff_past token_document zero_AccessTokenResponse
                  token_record w Hdecode)).
Defined.

(** In the second of its expiry the record is still served, although the
    clock has reached the expiration instant. *)
Lemma Get_succeeds_in_the_expiry_second :
  let c := {| data := token_document |} in
  let w := world 1999999999 unreachable in
  json_Unmarshal (data c) zero_AccessTokenResponse = (token_record, None)
  ∧ (unix_now w >= GetExpireTime token_record `quot` 1000)%Z
  ∧ InMemoryCache_Get c zero_AccessTokenResponse w = ((None, token_record), w).
Proof.
  vm_compute. split; [reflexivity|]. split; [discriminate|reflexivity].
Qed.


(** The scenario of the specification: no cache file; the endpoint answers
    with the token document; the token becomes [TOK], the file holds the
    document, and one request, with the key and the secret, has been sent. *)
Lemma cache_file_absent_scenario :
  let c := NewEzvizClient "K" "S" in
  let w := world 1700000000 (ok_response json_header token_document) in
  let run := goezviz.RefreshAccessToken c w in
  run.1 = Ret (None, set_AccessToken "TOK" c)
  ∧ files run.2 !! "ezviz_K.auth_file" = Some token_document
  ∧ ∃ request,
      requests run.2 = requests w ++ [request]
      ∧ Method request = "POST"
      ∧ Body request = Some ("{" +:+ quoted "appkey" +:+ ":" +:+ quoted "K" +:+ ","
                             +:+ quoted "appsecret" +:+ ":" +:+ quoted "S" +:+ "}").
Proof.
  intros c w run.
  pose (e0 := errors_New "open ezviz_K.auth_file: no such file or directory").
  assert (Cache_Get (EzvizClient_Cache c) zero_AccessTokenResponse w
          = ((Some e0, zero_AccessTokenResponse), w)) as Hget
    by (vm_compute; reflexivity).
  destruct (RefreshAccessToken_cache_miss c w e0 zero_AccessTokenResponse w Hget)
    as [Honce Hok].
  pose (rpc := goezviz.httpRPC c "/lapp/token/get" None (Some (auth_params c))
                 zero_AccessTokenResponse w).
  assert (rpc = (Ret (None, token_record), rpc.2)) as Hrpc
    by (vm_compute; reflexivity).
  pose (set := Cache_Set (EzvizClient_Cache c) token_record rpc.2).
  assert (set = ((None, EzvizClient_Cache c), set.2)) as Hset
    by (vm_compute; reflexivity).
  pose proof (Hok token_record rpc.2 Hrpc None (EzvizClient_Cache c) set.2 Hset) as Hrun.
  fold run in Hrun, Honce.
  split; [by rewrite Hrun|]. split.
  - rewrite Hrun. vm_compute. reflexivity.
  - exact Honce.
Defined.

(** A cache whose [Set] fails: the error of [Set] is the result, and the
    client holds the new token all the same. *)
Example set_failure_example :
  let c := mk_EzvizClient "K" "S" EmptyString (mk_Client (10 * time_Second))
             failing_cache in
  let w := world 1700000000 (ok_response json_header token_document) in
  (goezviz.RefreshAccessToken c w).1
  = Ret (Some (errors_New "cache is read-only"), set_AccessToken "TOK" c).
Proof. vm_compute. reflexivity. Qed.

(** The token record goes through both caches. *)
Lemma token_record_roundtrip :
  let w := world 0 unreachable in
  let later := set_unix_now 1700000000 in
  json_Marshal token_record = (token_document, None)
  ∧ json_Unmarshal token_document zero_AccessTokenResponse = (token_record, None)
  ∧ (∃ c', InMemoryCache_Set NewInMemoryCache token_record w = ((None, c'), w)
           ∧ InMemoryCache_Get c' zero_AccessTokenResponse (later w)
             = ((None, token_record), later w))
  ∧ (∃ w', FileCache_Set (NewFileCache "ezviz_K.auth_file") token_record w = (None, w')
           ∧ FileCache_Get (NewFileCache "ezviz_K.auth_file")
               zero_AccessTokenResponse (later w')
             = ((None, token_record), later w')).
Proof.
  intros w later.
  assert (json_Marshal token_record = (token_document, None)) as Hencode
    by (vm_compute; reflexivity).
  assert (json_Unmarshal token_document zero_AccessTokenResponse = (token_record, None))
    as Hdecode by (vm_compute; reflexivity).
  assert (1700000000 * 1000 < GetExpireTime token_record)%Z as Hfuture
    by (vm_compute; reflexivity).
  destruct (Set_then_Get_roundtrip token_document zero_AccessTokenResponse token_record
              w 1700000000 Hencode Hdecode Hfuture) as [Hmem Hfile].
  split; [exact Hencode|]. split; [exact Hdecode|]. split.
  - apply Hmem.
  - apply Hfile. apply not_elem_of_empty.
Defined.

(** A cache file that cannot be written: [Set] reports no error, nothing is
    stored, and the [Get] that follows fails, for a record that is encoded
    and decoded without loss and expires in the future. *)
Lemma FileCache_Set_drops_write_error :
  let c := NewFileCache "ezviz_K.auth_file" in
  let w := mk_World ∅ {[ "ezviz_K.auth_file" ]} 1700000000 ∅ (λ _, unreachable) [] ∅ in
  json_Marshal token_record = (token_document, None)
  ∧ json_Unmarshal token_document zero_AccessTokenResponse = (token_record, None)
  ∧ (unix_now w * 1000 < GetExpireTime token_record)%Z
  ∧ FileCache_Set c token_record w = (None, w)
  ∧ FileCache_Get c zero_AccessTokenResponse w
    = ((Some (errors_New "open ezviz_K.auth_file: no such file or directory"),
        zero_AccessTokenResponse), w).
Proof.
  vm_compute. repeat split.
Qed.

(** With the reference codec, every representable record that expires in
    the future goes through both caches. *)
Lemma representable_record_roundtrip (R : AccessTokenResponse) (w : World) (now : Z) :
  encoding_json.representable R →
  (now * 1000 < ExpireTime (Data R))%Z →
  (∀ c : InMemoryCache,
     ∃ c', InMemoryCache_Set c R w = ((None, c'), w)
           ∧ InMemoryCache_Get c' zero_AccessTokenResponse (set_unix_now now w)
             = ((None, R), set_unix_now now w))
  ∧ (∀ c : FileCache, Path c ∉ write_protected w →
       ∃ w', FileCache_Set c R w = (None, w')
             ∧ FileCache_Get c zero_AccessTokenResponse (set_unix_now now w')
               = ((None, R), set_unix_now now w')).
Proof.
  intros HR Hfuture.
  pose proof (Unmarshal_Marshal_AccessTokenResponse R zero_AccessTokenResponse HR)
    as Hdecode.
  split.
  - intros c. by eapply InMemoryCache_Set_Get.
  - intros c Hwritable. by eapply FileCache_Set_Get.
Qed.

(** A token that is not well-formed UTF-8 does not come back as it was
    stored: the encoder writes the replacement rune in its place. *)
Example ill_formed_text_is_replaced :
  let R := mk_AccessTokenResponse (mk_OAPIResponse "200" EmptyString)
             (mk_AccessToken (String (encoding_json.byte 255) "OK") 1999999999000) in
  json_Unmarshal (json_Marshal R).1 zero_AccessTokenResponse
  = (mk_AccessTokenResponse (mk_OAPIResponse "200" EmptyString)
       (mk_AccessToken (encoding_json.replacement +:+ "OK") 1999999999000), None).
Proof. vm_compute. reflexivity. Qed.

(** The example of the specification: the body reports the code 400. *)
Lemma bad_key_example :
  let c := NewEzvizClient "K" "S" in
  let body := "{" +:+ quoted "code" +:+ ":" +:+ quoted "400" +:+ ","
              +:+ quoted "msg" +:+ ":" +:+ quoted "bad key" +:+ "}" in
  let w := world 0 (ok_response json_header body) in
  let requestData : option (gmap string string) := None in
  goezviz.httpRequest c "/lapp/device/list" None requestData zero_OAPIResponse w
  = (Ret (Some (errors_New "400: bad key"), mk_OAPIResponse "400" "bad key"),
     sent (goezviz.newRequest "/lapp/device/list" None requestData w) w).
Proof.
  intros c body w requestData.
  pose proof (httpRequest_json_code_decides c "/lapp/device/list" None requestData
                zero_OAPIResponse w (ok_response json_header body).1 id
                (λ _, eq_refl) eq_refl eq_refl eq_refl eq_refl) as H.
  rewrite H. vm_compute. reflexivity.
Defined.

(** The same with the code 200: no error. *)
Example ok_example :
  let c := NewEzvizClient "K" "S" in
  let body := "{" +:+ quoted "code" +:+ ":" +:+ quoted "200" +:+ ","
              +:+ quoted "msg" +:+ ":" +:+ quoted "ok" +:+ "}" in
  let w := world 0 (ok_response json_header body) in
  let requestData : option (gmap string string) := None in
  (goezviz.httpRequest c "/lapp/device/list" None requestData zero_OAPIResponse w).1
  = Ret (None, mk_OAPIResponse "200" "ok").
Proof. vm_compute. reflexivity. Qed.

(** A status 404 with a body that is a well-formed token document: the
    document is not decoded. *)
Lemma not_found_example :
  let c := NewEzvizClient "K" "S" in
  let resp := mk_Response 404 "404 Not Found" json_header (mk_Body token_document None) in
  let w := world 0 (resp, None) in
  let requestData : option (gmap string string) := None in
  goezviz.httpRequest c "/lapp/token/get" None requestData zero_AccessTokenResponse w
  = (Ret (Some (errors_New "Server error: 404 Not Found"), zero_AccessTokenResponse),
     sent (goezviz.newRequest "/lapp/token/get" None requestData w) w).
Proof.
  intros c resp w requestData.
  apply (httpRequest_status_short_circuit c "/lapp/token/get" None requestData
           zero_AccessTokenResponse w resp eq_refl).
  discriminate.
Defined.

(** The network refuses the connection: the error comes back as it is and
    the client keeps the token it had. *)
Lemma connection_refused_example :
  let c := set_AccessToken "OLD" (NewEzvizClient "K" "S") in
  let w := world 0 unreachable in
  (goezviz.RefreshAccessToken c w).1
  = Ret (Some (errors_New "dial tcp: connection refused"), c).
Proof.
  intros c w.
  pose (e0 := errors_New "open ezviz_K.auth_file: no such file or directory").
  assert (Cache_Get (EzvizClient_Cache c) zero_AccessTokenResponse w
          = ((Some e0, zero_AccessTokenResponse), w)) as Hget
    by (vm_compute; reflexivity).
  pose (rpc := goezviz.httpRPC c "/lapp/token/get" None (Some (auth_params c))
                 zero_AccessTokenResponse w).
  assert (rpc = (Ret (Some (errors_New "dial tcp: connection refused"),
                      zero_AccessTokenResponse), rpc.2)) as Hrpc
    by (vm_compute; reflexivity).
  by rewrite (RefreshAccessToken_rpc_failure c w e0 _ _ _ _ _ Hget Hrpc).
Defined.

(** A body whose [msg] is a number: the decoder reports an error and leaves
    the code it had stored; the call returns no error. *)
Lemma decode_error_example :
  let c := NewEzvizClient "K" "S" in
  let body := "{" +:+ quoted "code" +:+ ":" +:+ quoted "200" +:+ "," +:+ quoted "msg" +:+ ":5}" in
  let w := world 0 (ok_response json_header body) in
  let requestData : option (gmap string string) := None in
  is_Some (json_Unmarshal body zero_OAPIResponse).2
  ∧ goezviz.httpRequest c "/lapp/device/list" None requestData zero_OAPIResponse w
    = (Ret (None, mk_OAPIResponse "200" EmptyString),
       sent (goezviz.newRequest "/lapp/device/list" None requestData w) w).
Proof.
  intros c body w requestData.
  pose (e := encoding_json.UnmarshalTypeError (encoding_json.JNumber "5")
               "OAPIResponse.msg" "string").
  assert (json_Unmarshal body zero_OAPIResponse
          = (mk_OAPIResponse "200" EmptyString, Some e)) as Hdecode
    by (vm_compute; reflexivity).
  split; [rewrite Hdecode; by eexists|].
  rewrite (httpRequest_decode_error_dropped c "/lapp/device/list" None requestData
             zero_OAPIResponse w (ok_response json_header body).1 _ e
             eq_refl eq_refl eq_refl eq_refl Hdecode).
  reflexivity.
Defined.

(** A page of HTML answered to a call that expects an [OAPIResponse]. *)
Lemma html_answer_panics :
  let c := NewEzvizClient "K" "S" in
  let w := world 0 (ok_response html_header "<html>") in
  let requestData : option (gmap string string) := None in
  goezviz.httpRequest c "/lapp/device/list" None requestData zero_OAPIResponse w
  = (Panic nil_dereference,
     sent (goezviz.newRequest "/lapp/device/list" None requestData w) w).
Proof.
  intros c w requestData.
  destruct (httpRequest_stream_needs_writer c "/lapp/device/list" None requestData
              zero_OAPIResponse w (ok_response html_header "<html>").1
              eq_refl eq_refl eq_refl) as (_ & _ & _ & H).
  exact H.
Defined.

(** The caller passes an [accessToken] entry whose value is empty: the
    entry is replaced by the token of the client, where [httpRequest] on
    the parameters as they were passed would have sent the empty value. *)
Lemma httpRPC_replaces_empty_accessToken :
  let c := set_AccessToken "T" (NewEzvizClient "K" "S") in
  let params : url_Values := Some {[ "accessToken" := [EmptyString] ]} in
  let w := world 0 unreachable in
  let requestData : option (gmap string string) := None in
  is_Some (default ∅ params !! "accessToken")
  ∧ URL <$> requests (goezviz.httpRPC c "/lapp/device/list" params requestData
                        zero_OAPIResponse w).2
    = ["https://open.ys7.com/api//lapp/device/list?accessToken=T"]
  ∧ URL <$> requests (goezviz.httpRequest c "/lapp/device/list" params requestData
                        zero_OAPIResponse w).2
    = ["https://open.ys7.com/api//lapp/device/list?accessToken="]
  ∧ URL <$> requests (goezviz_query.httpRPC c "/lapp/device/list" params requestData
                        zero_OAPIResponse w).2
    = ["https://open.ys7.com/api//lapp/device/list?accessToken=T"].
Proof.
  vm_compute. split; [by eexists|]. repeat split.
Qed.

End examples.

(** * Further properties *)

(** ** The caches: errors, bounds and footprint *)

Section cache_extras.
Context {T : Type} `{!Expirable T, !json_Marshaler T, !json_Unmarshaler T}.
Implicit Types (d R : T) (w : World).

Lemma Get_check (R : T) (now : Z) :
  (now >? GetExpireTime R `quot` 1000)%Z = false
  ↔ (now <= GetExpireTime R `quot` 1000)%Z.
Proof. destruct (Z.gtb_spec now (GetExpireTime R `quot` 1000)); split; intros; done || lia. Qed.

(** X1.  [Get] returns a record without error exactly when the slot holds
    bytes that decode without error into that record and the clock, in
    seconds, has not passed the expiry divided by 1000. *)
Theorem Get_succeeds_iff d R w :
  (∀ c : FileCache,
     FileCache_Get c d w = ((None, R), w)
     ↔ ∃ bytes, files w !! Path c = Some bytes
                ∧ json_Unmarshal bytes d = (R, None)
                ∧ (unix_now w <= GetExpireTime R `quot` 1000)%Z)
  ∧ (∀ c : InMemoryCache,
       InMemoryCache_Get c d w = ((None, R), w)
       ↔ json_Unmarshal (data c) d = (R, None)
         ∧ (unix_now w <= GetExpireTime R `quot` 1000)%Z).
Proof.
  split.
  - intros c. unfold FileCache_Get, ioutil_ReadFile, time_Now_Unix. split.
    + destruct (files w !! Path c) as [bytes|]; [|done].
      destruct (json_Unmarshal bytes d) as [R' [e|]] eqn:Hdecode; [done|].
      destruct (unix_now w >? _)%Z eqn:Hnow; [done|].
      intros [= ->]. exists bytes. by rewrite <- Get_check.
    + intros (bytes & Hfile & Hdecode & Hnow).
      rewrite Hfile, Hdecode. by rewrite (proj2 (Get_check R _)).
  - intros c. unfold InMemoryCache_Get, time_Now_Unix. split.
    + destruct (json_Unmarshal (data c) d) as [R' [e|]] eqn:Hdecode; [done|].
      destruct (unix_now w >? _)%Z eqn:Hnow; [done|].
      intros [= ->]. by rewrite <- Get_check.
    + intros (Hdecode & Hnow).
      rewrite Hdecode. by rewrite (proj2 (Get_check R _)).
Qed.

(** X2.  Bytes that do not decode: [Get] returns the error of the decoder,
    whatever the clock says, and hands the record back as the decoder left
    it; the expiry is not looked at. *)
Theorem Get_decode_error bytes d R w (e : error) :
  json_Unmarshal bytes d = (R, Some e) →
  (∀ c : FileCache, files w !! Path c = Some bytes →
     FileCache_Get c d w = ((Some e, R), w))
  ∧ InMemoryCache_Get {| data := bytes |} d w = ((Some e, R), w).
Proof.
  intros Hdecode. split.
  - intros c Hfile. unfold FileCache_Get, ioutil_ReadFile. by rewrite Hfile, Hdecode.
  - unfold InMemoryCache_Get. simpl. by rewrite Hdecode.
Qed.

(** X3.  A record that cannot be encoded: [Set] returns the error of the
    encoder and stores nothing, so that a [Get] that follows finds what it
    would have found before. *)
Theorem Set_encode_error bytes d R w (e : error) :
  json_Marshal R = (bytes, Some e) →
  (∀ c : FileCache,
     FileCache_Set c R w = (Some e, w)
     ∧ FileCache_Get c d (FileCache_Set c R w).2 = FileCache_Get c d w)
  ∧ (∀ c : InMemoryCache,
       InMemoryCache_Set c R w = ((Some e, c), w)
       ∧ InMemoryCache_Get (InMemoryCache_Set c R w).1.2 d w = InMemoryCache_Get c d w).
Proof.
  intros Hencode. split; intros c.
  - unfold FileCache_Set. by rewrite Hencode.
  - unfold InMemoryCache_Set. by rewrite Hencode.
Qed.

(** X4.  The slot holds one record: of two records set one after the other,
    [Get] returns the second. *)
Theorem Set_overwrites bytes1 bytes2 d R1 R2 w (now : Z) :
  json_Marshal R1 = (bytes1, None) →
  json_Marshal R2 = (bytes2, None) →
  json_Unmarshal bytes2 d = (R2, None) →
  (now * 1000 < GetExpireTime R2)%Z →
  (∀ c : InMemoryCache,
     let c1 := (InMemoryCache_Set c R1 w).1.2 in
     let c2 := (InMemoryCache_Set c1 R2 w).1.2 in
     InMemoryCache_Get c2 d (set_unix_now now w) = ((None, R2), set_unix_now now w))
  ∧ (∀ c : FileCache, Path c ∉ write_protected w →
       let w1 := (FileCache_Set c R1 w).2 in
       let w2 := (FileCache_Set c R2 w1).2 in
       FileCache_Get c d (set_unix_now now w2) = ((None, R2), set_unix_now now w2)).
Proof.
  intros Hencode1 Hencode2 Hdecode Hfuture. split.
  - intros c c1 c2. subst c1 c2. unfold InMemoryCache_Set.
    rewrite Hencode1. simpl. rewrite Hencode2. simpl.
    unfold InMemoryCache_Get, time_Now_Unix. simpl.
    by rewrite Hdecode, future_not_expired.
  - intros c Hwritable w1 w2. subst w1 w2.
    unfold FileCache_Set, ioutil_WriteFile.
    rewrite Hencode1, decide_False by done. simpl.
    rewrite Hencode2, decide_False by done. simpl.
    unfold FileCache_Get, ioutil_ReadFile, time_Now_Unix. simpl.
    rewrite lookup_insert_eq, Hdecode.
    by rewrite future_not_expired.
Qed.

Lemma FileCache_Get_decoded bytes d R w (c : FileCache) :
  files w !! Path c = Some bytes →
  json_Unmarshal bytes d = (R, None) →
  FileCache_Get c d w =
    ((if (unix_now w >? GetExpireTime R `quot` 1000)%Z then Some err_expired else None, R), w).
Proof.
  intros Hfile Hdecode. unfold FileCache_Get, ioutil_ReadFile, time_Now_Unix.
  rewrite Hfile, Hdecode. by case_match.
Qed.

Lemma InMemoryCache_Get_decoded bytes d R w :
  json_Unmarshal bytes d = (R, None) →
  InMemoryCache_Get {| data := bytes |} d w =
    ((if (unix_now w >? GetExpireTime R `quot` 1000)%Z then Some err_expired else None, R), w).
Proof.
  intros Hdecode. unfold InMemoryCache_Get, time_Now_Unix. simpl.
  rewrite Hdecode. by case_match.
Qed.

(** X5.  A record that [Get] refuses as expired stays refused at every
    later time. *)
Theorem Get_expired_forever bytes d R w (t t' : Z) :
  json_Unmarshal bytes d = (R, None) →
  (t <= t')%Z →
  (∀ c : FileCache, files w !! Path c = Some bytes →
     (FileCache_Get c d (set_unix_now t w)).1.1 = Some err_expired →
     FileCache_Get c d (set_unix_now t' w) = ((Some err_expired, R), set_unix_now t' w))
  ∧ ((InMemoryCache_Get {| data := bytes |} d (set_unix_now t w)).1.1 = Some err_expired →
     InMemoryCache_Get {| data := bytes |} d (set_unix_now t' w)
     = ((Some err_expired, R), set_unix_now t' w)).
Proof.
  intros Hdecode Hle. split.
  - intros c Hfile.
    rewrite !(FileCache_Get_decoded bytes d R) by done. simpl.
    destruct (Z.gtb_spec t (GetExpireTime R `quot` 1000)); [|done]. intros _.
    destruct (Z.gtb_spec t' (GetExpireTime R `quot` 1000)); [done|lia].
  - rewrite !(InMemoryCache_Get_decoded bytes d R) by done. simpl.
    destruct (Z.gtb_spec t (GetExpireTime R `quot` 1000)); [|done]. intros _.
    destruct (Z.gtb_spec t' (GetExpireTime R `quot` 1000)); [done|lia].
Qed.

(** The test of [Get] on the clock, in milliseconds. *)
Lemma expiry_in_milliseconds (expireTime now : Z) :
  (now <= expireTime `quot` 1000)%Z
  ↔ if decide (0 <= expireTime)%Z then (now * 1000 <= expireTime)%Z
    else (now * 1000 < expireTime + 1000)%Z.
Proof.
  pose proof (Z.quot_rem' expireTime 1000) as Hqr.
  case_decide as Hsign.
  - pose proof (Z.rem_bound_pos expireTime 1000 ltac:(lia) ltac:(lia)). lia.
  - pose proof (Z.rem_bound_pos (- expireTime) 1000 ltac:(lia) ltac:(lia)) as Hrem.
    rewrite Z.rem_opp_l' in Hrem. lia.
Qed.

(** X6.  In milliseconds: a decoded record whose expiry is not negative is
    served as long as the clock, in whole seconds, times 1000 is at most the
    expiry, that is up to 999 ms after the expiry has passed; the division
    truncates toward zero, so a record with a negative expiry is served as
    long as the clock times 1000 is less than the expiry plus 1000. *)
Theorem Get_bounds_in_milliseconds bytes d R w :
  json_Unmarshal bytes d = (R, None) →
  let served :=
    if decide (0 <= GetExpireTime R)%Z then (unix_now w * 1000 <= GetExpireTime R)%Z
    else (unix_now w * 1000 < GetExpireTime R + 1000)%Z in
  (∀ c : FileCache, files w !! Path c = Some bytes →
     (FileCache_Get c d w = ((None, R), w) ↔ served)
     ∧ (FileCache_Get c d w = ((Some err_expired, R), w) ↔ ¬ served))
  ∧ (InMemoryCache_Get {| data := bytes |} d w = ((None, R), w) ↔ served)
  ∧ (InMemoryCache_Get {| data := bytes |} d w = ((Some err_expired, R), w) ↔ ¬ served).
Proof.
  intros Hdecode served.
  assert (served ↔ (unix_now w <= GetExpireTime R `quot` 1000)%Z) as Hserved.
  { subst served. symmetry. apply expiry_in_milliseconds. }
  split; [intros c Hfile; rewrite (FileCache_Get_decoded bytes d R) by done
         |rewrite (InMemoryCache_Get_decoded bytes d R) by done].
  all: rewrite Hserved.
  all: destruct (Z.gtb_spec (unix_now w) (GetExpireTime R `quot` 1000)).
  all: repeat split; intros; try done; try lia.
Qed.

(** X7.  The footprint of the caches.  [Set] of a [FileCache] changes the
    content of the file at its path and nothing else of the world; [Get] of
    a [FileCache] and both methods of an [InMemoryCache] leave the world as
    it is. *)
Theorem cache_footprint d R w :
  (∀ c : FileCache,
     let w' := (FileCache_Set c R w).2 in
     (∀ path, path ≠ Path c → files w' !! path = files w !! path)
     ∧ set_files (files w) w' = w
     ∧ (FileCache_Get c d w).2 = w)
  ∧ (∀ c : InMemoryCache,
       (InMemoryCache_Set c R w).2 = w ∧ (InMemoryCache_Get c d w).2 = w).
Proof.
  split; intros c.
  - repeat split.
    + intros path Hpath. unfold FileCache_Set, ioutil_WriteFile.
      destruct (json_Marshal R) as [bytes [e|]]; [done|].
      case_decide; [done|]. simpl. by rewrite lookup_insert_ne.
    + unfold FileCache_Set, ioutil_WriteFile.
      destruct (json_Marshal R) as [bytes [e|]]; [by destruct w|].
      case_decide; by destruct w.
    + unfold FileCache_Get, ioutil_ReadFile.
      destruct (files w !! Path c) as [bytes|]; [|done].
      destruct (json_Unmarshal bytes d) as [d' [e|]]; [done|]. by case_match.
  - split.
    + unfold InMemoryCache_Set. by destruct (json_Marshal R) as [bytes [e|]].
    + unfold InMemoryCache_Get.
      destruct (json_Unmarshal (data c) d) as [d' [e|]]; [done|]. by case_match.
Qed.

(** X8.  File caches on different paths do not see each other: what [Get]
    of one returns is the same before and after a [Set] of the other. *)
Theorem FileCache_isolation d d' R w (c1 c2 : FileCache) :
  Path c1 ≠ Path c2 →
  (FileCache_Get c2 d' (FileCache_Set c1 R w).2).1 = (FileCache_Get c2 d' w).1.
Proof.
  intros Hpath. unfold FileCache_Set, ioutil_WriteFile.
  destruct (json_Marshal R) as [bytes [e|]]; [done|].
  case_decide; [done|].
  unfold FileCache_Get, ioutil_ReadFile, time_Now_Unix. simpl.
  rewrite lookup_insert_ne by done.
  destruct (files w !! Path c2) as [bytes2|]; [|done].
  destruct (json_Unmarshal bytes2 d') as [R' [e|]]; [done|].
  unfold set_files. simpl. by destruct (unix_now w >? _)%Z.
Qed.

End cache_extras.

(** ** The constructor *)

Lemma str_app_inj_r (a b s : string) : a +:+ s = b +:+ s → a = b.
Proof.
  revert b. induction a as [|x a IH]; intros [|y b] H.
  - done.
  - apply (f_equal String.length) in H. rewrite !str_length_app in H.
    simpl in H. lia.
  - apply (f_equal String.length) in H. rewrite !str_length_app in H.
    simpl in H. lia.
  - revert H. cbv [String.append]. fold String.append. intros [= -> H].
    f_equal. by apply IH.
Qed.

(** X9.  [NewEzvizClient] keys the cache file by the application key alone:
    two clients get the same cache exactly when their keys are equal,
    whatever their secrets. *)
Theorem NewEzvizClient_cache_by_appKey (appKey appSecret appKey' appSecret' : string) :
  EzvizClient_Cache (NewEzvizClient appKey appSecret)
  = EzvizClient_Cache (NewEzvizClient appKey' appSecret')
  ↔ appKey = appKey'.
Proof.
  unfold NewEzvizClient, NewFileCache. simpl. split; [|by intros ->].
  intros [= H]. change (appKey +:+ ".auth_file" = appKey' +:+ ".auth_file") in H.
  by apply str_app_inj_r in H.
Qed.

(** ** The dispatcher: errors, footprint and the token parameter *)

Section dispatch_extras.
Context {C D R : Type}.
Context `{!json_Marshaler D, !json_Unmarshaler R, !Unmarshallable R}.
Implicit Types (c : EzvizClient C) (params : url_Values) (requestData : option D).
Implicit Types (responseData : R) (w : World) (resp : http_Response).

(** X10.  When the transport fails, [httpRequest] returns the error of the
    transport itself; the response shape is not touched, and the request has
    been sent once. *)
Theorem httpRequest_transport_error c path params requestData responseData w resp
    (e : error) :
  (network w (goezviz.newRequest path params requestData w) = (resp, Some e) →
   goezviz.httpRequest c path params requestData responseData w
   = (Ret (Some e, responseData), sent (goezviz.newRequest path params requestData w) w))
  ∧ (network w (goezviz_query.newRequest path params w) = (resp, Some e) →
     goezviz_query.httpRequest c path params requestData responseData w
     = (Ret (Some e, responseData), sent (goezviz_query.newRequest path params w) w)).
Proof.
  split; intros Hnet; run_httpRequest; by rewrite Hnet.
Qed.

(** X11.  When the body of a JSON response with status 200 cannot be read
    to its end, [httpRequest] returns no error at all and leaves the
    response shape as it was: the error of the read is lost. *)
Theorem httpRequest_read_error_lost c path params requestData responseData w resp
    (e : error) :
  StatusCode resp = 200%Z →
  String.prefix typeJSON (http_Header_Get (RespHeader resp) "Content-Type") = true →
  read_error (RespBody resp) = Some e →
  (network w (goezviz.newRequest path params requestData w) = (resp, None) →
   goezviz.httpRequest c path params requestData responseData w
   = (Ret (None, responseData), sent (goezviz.newRequest path params requestData w) w))
  ∧ (network w (goezviz_query.newRequest path params w) = (resp, None) →
     goezviz_query.httpRequest c path params requestData responseData w
     = (Ret (None, responseData), sent (goezviz_query.newRequest path params w) w)).
Proof.
  intros Hstatus Hjson Hread.
  split; intros Hnet; run_httpRequest; rewrite Hnet;
    (case_decide; [done|]); by rewrite typeJSON_test, Hjson, Hread.
Qed.

(** X12.  Every call of [httpRPC] sends exactly one request, whatever comes
    back: an error of the transport, any status, any content type, a panic
    of the copy. *)
Theorem httpRPC_sends_one_request c path params requestData responseData w :
  (∃ request,
     requests (goezviz.httpRPC c path params requestData responseData w).2
     = requests w ++ [request])
  ∧ (∃ request,
       requests (goezviz_query.httpRPC c path params requestData responseData w).2
       = requests w ++ [request]).
Proof.
  split.
  - destruct (httpRPC_requests c path params requestData responseData w) as [p H].
    eauto.
  - destruct (query_httpRPC_requests c path params requestData responseData w) as [p H].
    eauto.
Qed.

Lemma httpRequest_footprint c path params requestData responseData w :
  let w' := (goezviz.httpRequest c path params requestData responseData w).2 in
  set_sinks (sinks w) (set_requests (requests w) w') = w
  ∧ (getWriter responseData = None → sinks w' = sinks w).
Proof.
  run_httpRequest.
  destruct (network w _) as [resp [e|]]; [by destruct w|].
  case_decide; [by destruct w|].
  case_match.
  - destruct (read_error _); [by destruct w|].
    destruct (json_Unmarshal _ _). by destruct w.
  - unfold io_Copy. destruct (getWriter responseData); [by destruct w|].
    case_decide; by destruct w.
Qed.

Lemma query_httpRequest_footprint c path params requestData responseData w :
  let w' := (goezviz_query.httpRequest c path params requestData responseData w).2 in
  set_sinks (sinks w) (set_requests (requests w) w') = w
  ∧ (getWriter responseData = None → sinks w' = sinks w).
Proof.
  run_httpRequest.
  destruct (network w _) as [resp [e|]]; [by destruct w|].
  case_decide; [by destruct w|].
  case_match.
  - destruct (read_error _); [by destruct w|].
    destruct (json_Unmarshal _ _). by destruct w.
  - unfold io_Copy. destruct (getWriter responseData); [by destruct w|].
    case_decide; by destruct w.
Qed.

(** X13.  The footprint of the dispatcher: a call of [httpRPC] changes the
    log of sent requests and, when the response shape has a writer, the byte
    sinks; the files, the clock, the environment and the network are as
    before, and without a writer so are the sinks. *)
Theorem httpRPC_footprint c path params requestData responseData w :
  (let w' := (goezviz.httpRPC c path params requestData responseData w).2 in
   set_sinks (sinks w) (set_requests (requests w) w') = w
   ∧ (getWriter responseData = None → sinks w' = sinks w))
  ∧ (let w' := (goezviz_query.httpRPC c path params requestData responseData w).2 in
     set_sinks (sinks w) (set_requests (requests w) w') = w
     ∧ (getWriter responseData = None → sinks w' = sinks w)).
Proof.
  split.
  - unfold goezviz.httpRPC. apply httpRequest_footprint.
  - unfold goezviz_query.httpRPC. apply query_httpRequest_footprint.
Qed.

(** X14.  The parameters [httpRPC] sends.  Every key but [accessToken] keeps
    the values of the caller; a client that holds a token never sends an
    empty [accessToken]; an [accessToken] of the caller that is not empty is
    sent as it is; a client without token sends the parameters of the caller
    as they are. *)
Theorem httpRPC_parameters c path params requestData responseData :
  ∃ params',
    goezviz.httpRPC c path params requestData responseData
    = goezviz.httpRequest c path params' requestData responseData
    ∧ goezviz_query.httpRPC c path params requestData responseData
      = goezviz_query.httpRequest c path params' requestData responseData
    ∧ (∀ key, key ≠ "accessToken" → default ∅ params' !! key = default ∅ params !! key)
    ∧ (EzvizClient_AccessToken c ≠ EmptyString →
       url_Values_Get params' "accessToken" ≠ EmptyString)
    ∧ (url_Values_Get params "accessToken" ≠ EmptyString →
       url_Values_Get params' "accessToken" = url_Values_Get params "accessToken"
       ∧ params' = params)
    ∧ (EzvizClient_AccessToken c = EmptyString → params' = params).
Proof.
  exists (if decide (EzvizClient_AccessToken c ≠ EmptyString
                     ∧ url_Values_Get params "accessToken" = EmptyString)
          then Some (<[ "accessToken" := [EzvizClient_AccessToken c] ]> (default ∅ params))
          else params).
  split; [|split].
  - unfold goezviz.httpRPC, url_Values_Set.
    destruct params as [m|]; simpl; repeat case_decide; try done; tauto.
  - unfold goezviz_query.httpRPC, url_Values_Set.
    destruct params as [m|]; simpl; repeat case_decide; try done; tauto.
  - case_decide as Hcase.
    + destruct Hcase as [Htoken Hget]. repeat split; try done.
      * intros key Hkey. simpl. by rewrite lookup_insert_ne.
      * intros _. unfold url_Values_Get. by rewrite lookup_insert_eq.
    + repeat split; try done.
      intros Htoken Hget. apply Hcase. done.
Qed.

End dispatch_extras.

(** ** Token refresh: from the answer of the endpoint to the cache *)

Section refresh_extras.
Context `{!json_Marshaler (gmap string string)}.
Context `{!json_Marshaler AccessTokenResponse, !json_Unmarshaler AccessTokenResponse}.

Lemma FileCache_Get_world {T : Type} `{!Expirable T, !json_Unmarshaler T}
    (c : FileCache) (d : T) (w : World) :
  (FileCache_Get c d w).2 = w.
Proof.
  unfold FileCache_Get, ioutil_ReadFile.
  destruct (files w !! Path c) as [bytes|]; [|done].
  destruct (json_Unmarshal bytes d) as [d' [e|]]; [done|]. by case_match.
Qed.

Lemma FileCache_Set_files {T : Type} `{!json_Marshaler T}
    (c : FileCache) (d : T) (w : World) :
  (∀ path, path ≠ Path c → files (FileCache_Set c d w).2 !! path = files w !! path)
  ∧ ((FileCache_Set c d w).1 ≠ None → files (FileCache_Set c d w).2 = files w).
Proof.
  unfold FileCache_Set, ioutil_WriteFile.
  destruct (json_Marshal d) as [bytes [e|]]; [done|].
  case_decide; [done|]. simpl. split; [|done].
  intros path Hpath. by rewrite lookup_insert_ne.
Qed.

Lemma httpRPC_files {C D R : Type}
    `{!json_Marshaler D, !json_Unmarshaler R, !Unmarshallable R}
    (c : EzvizClient C) path params (requestData : option D) (responseData : R) w :
  files (goezviz.httpRPC c path params requestData responseData w).2 = files w
  ∧ write_protected (goezviz.httpRPC c path params requestData responseData w).2
    = write_protected w.
Proof.
  unfold goezviz.httpRPC.
  match goal with
  | |- context [goezviz.httpRequest c path ?p requestData responseData w] =>
      destruct (httpRequest_footprint c path p requestData responseData w) as [H _]
  end.
  cbv zeta in H. split.
  - by apply (f_equal files) in H.
  - by apply (f_equal write_protected) in H.
Qed.

(** X15.  A token fetched from the endpoint is served from the cache from
    then on.  When a client with a file cache misses the cache, the call of
    the endpoint returns no error, the file can be written and the response
    record is one the codec gives back unchanged, then [RefreshAccessToken]
    returns no error, and as long as the record has not expired a further
    [RefreshAccessToken], of this client or of any client on the same cache
    file, adopts the same token without sending a request. *)
Theorem refreshed_token_is_cached (c c' : EzvizClient FileCache) w (e0 : error)
    res0 res1 w1 bytes (now : Z) :
  FileCache_Get (EzvizClient_Cache c) zero_AccessTokenResponse w = ((Some e0, res0), w) →
  goezviz.httpRPC c "/lapp/token/get" None (Some (auth_params c)) res0 w
  = (Ret (None, res1), w1) →
  Path (EzvizClient_Cache c) ∉ write_protected w →
  json_Marshal res1 = (bytes, None) →
  json_Unmarshal bytes zero_AccessTokenResponse = (res1, None) →
  (now * 1000 < ExpireTime (Data res1))%Z →
  EzvizClient_Cache c' = EzvizClient_Cache c →
  ∃ w2,
    goezviz.RefreshAccessToken c w
    = (Ret (None, set_AccessToken (AccessToken_AccessToken (Data res1)) c), w2)
    ∧ goezviz.RefreshAccessToken c' (set_unix_now now w2)
      = (Ret (None, set_AccessToken (AccessToken_AccessToken (Data res1)) c'),
         set_unix_now now w2)
    ∧ requests w2 = requests w1.
Proof.
  intros Hget Hrpc Hwritable Hencode Hdecode Hfuture Hshared.
  destruct (httpRPC_files c "/lapp/token/get" None (Some (auth_params c)) res0 w)
    as [_ Hprotected].
  rewrite Hrpc in Hprotected. simpl in Hprotected. rewrite <- Hprotected in Hwritable.
  destruct (FileCache_Set_Get bytes zero_AccessTokenResponse res1 w1 now
              (EzvizClient_Cache c) Hencode Hdecode Hfuture Hwritable)
    as (w2 & Hset & Hget2).
  exists w2. split; [|split].
  - unfold goezviz.RefreshAccessToken. unfold_M. simpl.
    rewrite Hget. fold (auth_params c). rewrite Hrpc. simpl. rewrite Hset.
    by destruct c.
  - unfold goezviz.RefreshAccessToken. unfold_M. simpl.
    by rewrite Hshared, Hget2.
  - pose proof (Cache_Set_requests (C := FileCache) (EzvizClient_Cache c) res1 w1) as H.
    simpl in H. by rewrite Hset in H.
Qed.

(** X16.  [RefreshAccessToken] of a client with a file cache writes no file
    but the cache file, and writes that one only when it returns no error:
    after an error or a panic the files are what they were. *)
Theorem failed_refresh_keeps_files (c : EzvizClient FileCache) w :
  let run := goezviz.RefreshAccessToken c w in
  (∀ path, path ≠ Path (EzvizClient_Cache c) → files run.2 !! path = files w !! path)
  ∧ match run.1 with
    | Ret (None, _) => True
    | _ => files run.2 = files w
    end.
Proof.
  unfold goezviz.RefreshAccessToken. unfold_M. simpl.
  pose proof (FileCache_Get_world (EzvizClient_Cache c) zero_AccessTokenResponse w) as Hw.
  destruct (FileCache_Get _ _ w) as [[[e0|] res0] w0]; simpl in Hw; subst w0; [|done].
  fold (auth_params c).
  destruct (httpRPC_files c "/lapp/token/get" None (Some (auth_params c)) res0 w)
    as [Hfiles _].
  destruct (goezviz.httpRPC c _ _ _ res0 w) as [[[[e|] res1]|msg] w1];
    simpl in *; [by rewrite Hfiles| |by rewrite Hfiles].
  destruct (FileCache_Set_files (EzvizClient_Cache c) res1 w1) as [Hother Hfail].
  destruct (FileCache_Set _ res1 w1) as [[e|] w2]; simpl in *.
  - split; [|rewrite Hfail by done; done].
    intros path Hpath. by rewrite Hother, Hfiles.
  - split; [|done]. intros path Hpath. by rewrite Hother, Hfiles.
Qed.

End refresh_extras.

Section refresh_answers.
Context {C : Type} `{!Cache AccessTokenResponse C}.
Context `{!json_Marshaler (gmap string string), !json_Unmarshaler AccessTokenResponse}.
Implicit Types (c : EzvizClient C) (w : World) (res : AccessTokenResponse).

Lemma auth_httpRPC c res w :
  goezviz.httpRPC c "/lapp/token/get" None (Some (auth_params c)) res w
  = goezviz.httpRequest c "/lapp/token/get" (token_query c) (Some (auth_params c)) res w.
Proof.
  unfold goezviz.httpRPC, token_query, url_Values_Set. by case_decide.
Qed.

(** X17.  From the answer of the endpoint to the result.  After a miss of
    the cache, a JSON answer with status 200 is decoded into the record as
    [Get] left it, not into a fresh one, so a field the answer does not
    mention keeps what [Get] had decoded.  If the code of the record is then
    200, its token becomes the token of the client and the record goes to
    [Set], whose result is returned; any other code is returned as the error
    made of the code and the message, the client is unchanged and [Set] is
    not called. *)
Theorem refresh_decodes_into_cached_record c w (e0 : error) res0 w0 resp :
  Cache_Get (EzvizClient_Cache c) zero_AccessTokenResponse w = ((Some e0, res0), w0) →
  let request :=
    goezviz.newRequest "/lapp/token/get" (token_query c) (Some (auth_params c)) w0 in
  network w0 request = (resp, None) →
  StatusCode resp = 200%Z →
  String.prefix typeJSON (http_Header_Get (RespHeader resp) "Content-Type") = true →
  read_error (RespBody resp) = None →
  let res1 := (json_Unmarshal (content (RespBody resp)) res0).1 in
  let code := Code (AccessTokenResponse_OAPIResponse res1) in
  let msg := Msg (AccessTokenResponse_OAPIResponse res1) in
  if decide (code = "200")
  then
    goezviz.RefreshAccessToken c w
    = (let '((err, cache), w2) := Cache_Set (EzvizClient_Cache c) res1 (sent request w0) in
       (Ret (err, set_Cache cache
                    (set_AccessToken (AccessToken_AccessToken (Data res1)) c)), w2))
  else
    goezviz.RefreshAccessToken c w
    = (Ret (Some (errors_New (code +:+ ": " +:+ msg)), c), sent request w0).
Proof.
  intros Hget request Hnet Hstatus Hjson Hread res1 code msg.
  assert (goezviz.httpRPC c "/lapp/token/get" None (Some (auth_params c)) res0 w0
          = (Ret (checkError res1, res1), sent request w0)) as Hrpc.
  { rewrite auth_httpRPC. run_httpRequest. fold request. rewrite Hnet.
    destruct (decide (StatusCode resp ≠ 200%Z)); [done|].
    rewrite typeJSON_test, Hjson, Hread. subst res1.
    by destruct (json_Unmarshal _ res0). }
  unfold goezviz.RefreshAccessToken. unfold_M. rewrite Hget.
  fold (auth_params c). rewrite Hrpc. simpl.
  unfold OAPIResponse_checkError, fmt_Errorf_s_s. fold code msg.
  destruct (decide (code = "200")) as [Hcode|Hcode].
  - rewrite decide_False by tauto.
    by destruct (Cache_Set _ res1 _) as [[err cache] w2].
  - by rewrite decide_True.
Qed.

(** X18.  After a miss of the cache, an answer with status 200 whose content
    type is not JSON and whose body is not empty makes [RefreshAccessToken]
    panic: the token record has no writer to copy the body to. *)
Theorem refresh_panics_on_stream_answer c w (e0 : error) res0 w0 resp :
  Cache_Get (EzvizClient_Cache c) zero_AccessTokenResponse w = ((Some e0, res0), w0) →
  let request :=
    goezviz.newRequest "/lapp/token/get" (token_query c) (Some (auth_params c)) w0 in
  network w0 request = (resp, None) →
  StatusCode resp = 200%Z →
  String.prefix typeJSON (http_Header_Get (RespHeader resp) "Content-Type") = false →
  content (RespBody resp) ≠ EmptyString →
  goezviz.RefreshAccessToken c w = (Panic nil_dereference, sent request w0).
Proof.
  intros Hget request Hnet Hstatus Hjson Hbody.
  unfold goezviz.RefreshAccessToken. unfold_M. rewrite Hget.
  fold (auth_params c). rewrite auth_httpRPC.
  run_httpRequest. fold request. rewrite Hnet.
  destruct (decide (StatusCode resp ≠ 200%Z)); [done|].
  rewrite typeJSON_test, Hjson.
  unfold io_Copy. simpl. by rewrite decide_False.
Qed.

End refresh_answers.

(** ** [sha1Sign] *)

Lemma hexdigit_lowerhex (n : N) : (n < 16)%N → is_lowerhex (hexdigit n) = true.
Proof.
  intros Hn. destruct n as [|p]; [done|].
  do 4 (destruct p as [p|p|]; try done); lia.
Qed.

Lemma Sprintf_x_format (bs : list N) :
  Forall (λ b, b < 256)%N bs →
  String.length (fmt_Sprintf_x bs) = (2 * length bs)%nat
  ∧ forallb is_lowerhex (list_ascii_of_string (fmt_Sprintf_x bs)) = true.
Proof.
  induction 1 as [|b bs Hb _ [IHlen IHhex]]; [done|].
  split.
  - simpl. rewrite IHlen. lia.
  - simpl. rewrite IHhex.
    rewrite !hexdigit_lowerhex; [done| |].
    + apply N.mod_lt. lia.
    + apply N.Div0.div_lt_upper_bound. lia.
Qed.

Lemma big_endian_bytes (n : nat) (x : N) :
  length (crypto_sha1.big_endian n x) = n
  ∧ Forall (λ b, b < 256)%N (crypto_sha1.big_endian n x).
Proof.
  induction n as [|n [IHlen IHb]]; [done|]. split.
  - simpl. by rewrite IHlen.
  - simpl. constructor; [|done]. apply N.mod_lt. lia.
Qed.

(** X19.  The signature of any string is forty characters long, each of
    them one of the digits 0 to 9 and the letters a to f. *)
Theorem sha1Sign_format (s : string) :
  String.length (sha1Sign s) = 40%nat
  ∧ forallb is_lowerhex (list_ascii_of_string (sha1Sign s)) = true.
Proof.
  unfold sha1Sign, crypto_sha1.Sum.
  destruct (foldl _ _ _) as [[[[h0 h1] h2] h3] h4].
  cbv zeta.
  destruct (Sprintf_x_format
              (crypto_sha1.big_endian 4 h0 ++ crypto_sha1.big_endian 4 h1
               ++ crypto_sha1.big_endian 4 h2 ++ crypto_sha1.big_endian 4 h3
               ++ crypto_sha1.big_endian 4 h4)) as [Hlen Hhex].
  { repeat (apply Forall_app; split); apply big_endian_bytes. }
  split; [|done].
  rewrite Hlen, !length_app, !(proj1 (big_endian_bytes 4 _)). done.
Qed.

(** ** The two variants side by side *)

Section variants.
Context {C D R : Type} `{!Cache AccessTokenResponse C}.
Context `{!json_Marshaler D, !json_Unmarshaler R, !Unmarshallable R}.
Context `{!json_Marshaler (gmap string string), !json_Unmarshaler AccessTokenResponse}.
Implicit Types (c : EzvizClient C) (params : url_Values) (requestData : option D).
Implicit Types (responseData : R) (w : World).

(** X20.  The two variants of [httpRequest] differ in the request they send
    and in nothing else: they address the same URL, and when the network
    gives both requests the same answer they return the same error and the
    same response shape, panic alike and write the same bytes to the
    sinks. *)
Theorem httpRequest_variants_agree c path params requestData responseData w :
  network w (goezviz.newRequest path params requestData w)
  = network w (goezviz_query.newRequest path params w) →
  let run := goezviz.httpRequest c path params requestData responseData w in
  let run' := goezviz_query.httpRequest c path params requestData responseData w in
  URL (goezviz.newRequest path params requestData w)
  = URL (goezviz_query.newRequest path params w)
  ∧ run.1 = run'.1
  ∧ sinks run.2 = sinks run'.2.
Proof.
  intros Hnet run run'. subst run run'. split.
  - unfold goezviz.newRequest, goezviz_query.newRequest.
    destruct requestData as [rd|]; [by destruct (json_Marshal rd)|done].
  - run_httpRequest. rewrite Hnet. clear Hnet.
    destruct (network w _) as [resp [e|]]; [by simpl|].
    case_decide; [by simpl|].
    case_match.
    + destruct (read_error _); [by simpl|]. by destruct (json_Unmarshal _ _).
    + unfold io_Copy. destruct (getWriter responseData); [by simpl|]. by case_decide.
Qed.

Lemma sorted_keys_auth (a b : list string) :
  sorted_keys (<[ "appSecret" := b ]> (<[ "appKey" := a ]> ∅)) = ["appKey"; "appSecret"].
Proof. vm_compute. reflexivity. Qed.

Lemma sorted_keys_auth_token (a b t : list string) :
  sorted_keys (<[ "accessToken" := t ]> (<[ "appSecret" := b ]> (<[ "appKey" := a ]> ∅)))
  = ["accessToken"; "appKey"; "appSecret"].
Proof. vm_compute. reflexivity. Qed.

Lemma Encode_token (t : string) :
  url_Values_Encode (Some (<[ "accessToken" := [t] ]> ∅))
  = "accessToken=" +:+ url_QueryEscape t.
Proof.
  unfold url_Values_Encode.
  replace (sorted_keys (<[ "accessToken" := [t] ]> (∅ : gmap string (list string))))
    with ["accessToken"] by (vm_compute; reflexivity).
  simpl. by rewrite lookup_insert_eq.
Qed.

Lemma Encode_auth_values c :
  url_Values_Encode (Some (auth_values c))
  = "appKey=" +:+ url_QueryEscape (AppKey c)
    +:+ "&appSecret=" +:+ url_QueryEscape (AppSecret c).
Proof.
  unfold url_Values_Encode, auth_values. rewrite sorted_keys_auth. simpl.
  rewrite lookup_insert_eq, lookup_insert_ne, lookup_insert_eq by done. simpl.
  by rewrite !str_app_assoc.
Qed.

Lemma Encode_auth_values_token c (t : string) :
  url_Values_Encode (Some (<[ "accessToken" := [t] ]> (auth_values c)))
  = "accessToken=" +:+ url_QueryEscape t
    +:+ "&appKey=" +:+ url_QueryEscape (AppKey c)
    +:+ "&appSecret=" +:+ url_QueryEscape (AppSecret c).
Proof.
  unfold url_Values_Encode, auth_values. rewrite sorted_keys_auth_token. simpl.
  rewrite lookup_insert_eq.
  rewrite (lookup_insert_ne _ "accessToken" "appKey") by done.
  rewrite (lookup_insert_ne _ "accessToken" "appSecret") by done.
  rewrite lookup_insert_eq, lookup_insert_ne, lookup_insert_eq by done. simpl.
  by rewrite !str_app_assoc.
Qed.

(** After a miss of the cache the requests sent are those of the call of the
    endpoint. *)
Lemma refresh_miss_requests c w (e0 : error) res0 w0 :
  Cache_Get (EzvizClient_Cache c) zero_AccessTokenResponse w = ((Some e0, res0), w0) →
  requests (goezviz.RefreshAccessToken c w).2
  = requests (goezviz.httpRPC c "/lapp/token/get" None (Some (auth_params c)) res0 w0).2
  ∧ requests (goezviz_query.RefreshAccessToken c w).2
    = requests (goezviz_query.httpRPC (D := unit) c "/lapp/token/get"
                  (Some (auth_values c)) None res0 w0).2.
Proof.
  intros Hget. split.
  - unfold goezviz.RefreshAccessToken. unfold_M. rewrite Hget.
    fold (auth_params c).
    destruct (goezviz.httpRPC _ _ _ _ res0 w0) as [[[[e|] res1]|msg] w1]; simpl; [done| |done].
    pose proof (Cache_Set_requests (EzvizClient_Cache c) res1 w1) as Hlog2.
    by destruct (Cache_Set _ res1 w1) as [[err cache] w2].
  - unfold goezviz_query.RefreshAccessToken. unfold_M. rewrite Hget.
    fold (auth_values c).
    destruct (goezviz_query.httpRPC _ _ _ _ res0 w0) as [[[[e|] res1]|msg] w1];
      simpl; [done| |done].
    pose proof (Cache_Set_requests (EzvizClient_Cache c) res1 w1) as Hlog2.
    by destruct (Cache_Set _ res1 w1) as [[err cache] w2].
Qed.

(** X21.  The authentication request on the wire, when [oapi_server] is not
    set.  After a miss of the cache the first variant posts the key and the
    secret as a JSON body, the second variant puts them, escaped, in the
    query string of a [POST] without body; a token the client still holds
    goes first in the query string of either.  Both address the path with a
    double slash. *)
Theorem auth_request_on_the_wire c w (e0 : error) res0 w0 :
  Cache_Get (EzvizClient_Cache c) zero_AccessTokenResponse w = ((Some e0, res0), w0) →
  os_Getenv "oapi_server" w0 = EmptyString →
  let token := EzvizClient_AccessToken c in
  requests (goezviz.RefreshAccessToken c w).2
  = requests w ++
    [mk_Request "POST"
       ("https://open.ys7.com/api//lapp/token/get?"
        +:+ (if decide (token = EmptyString) then EmptyString
             else "accessToken=" +:+ url_QueryEscape token))
       {[ "Content-Type" := [typeJSON] ]}
       (Some (json_Marshal (auth_params c)).1)]
  ∧ requests (goezviz_query.RefreshAccessToken c w).2
    = requests w ++
      [mk_Request "POST"
         ("https://open.ys7.com/api//lapp/token/get?"
          +:+ (if decide (token = EmptyString) then EmptyString
               else "accessToken=" +:+ url_QueryEscape token +:+ "&")
          +:+ "appKey=" +:+ url_QueryEscape (AppKey c)
          +:+ "&appSecret=" +:+ url_QueryEscape (AppSecret c))
         ∅ None].
Proof.
  intros Hget Henv token.
  pose proof (Cache_Get_requests (EzvizClient_Cache c) zero_AccessTokenResponse w) as Hlog0.
  rewrite Hget in Hlog0. simpl in Hlog0.
  split.
  - assert (requests (goezviz.httpRPC c "/lapp/token/get" None (Some (auth_params c))
                        res0 w0).2
            = requests w0 ++
              [mk_Request "POST"
                 ("https://open.ys7.com/api//lapp/token/get?"
                  +:+ (if decide (token = EmptyString) then EmptyString
                       else "accessToken=" +:+ url_QueryEscape token))
                 {[ "Content-Type" := [typeJSON] ]}
                 (Some (json_Marshal (auth_params c)).1)]) as Hlog1.
    { unfold goezviz.httpRPC. rewrite httpRequest_requests. do 2 f_equal.
      unfold goezviz.newRequest. rewrite Henv.
      destruct (json_Marshal (auth_params c)) as [d e]. simpl.
      f_equal. subst token. unfold url_Values_Set.
      destruct (decide (EzvizClient_AccessToken c = EmptyString)) as [Htoken|Htoken].
      - by rewrite decide_False by tauto.
      - rewrite decide_True by done. simpl.
        rewrite lookup_empty, decide_True by done. by rewrite Encode_token. }
    rewrite (proj1 (refresh_miss_requests c w e0 res0 w0 Hget)).
    by rewrite Hlog1, Hlog0.
  - assert (requests (goezviz_query.httpRPC (D := unit) c "/lapp/token/get"
                        (Some (auth_values c)) None res0 w0).2
            = requests w0 ++
              [mk_Request "POST"
                 ("https://open.ys7.com/api//lapp/token/get?"
                  +:+ (if decide (token = EmptyString) then EmptyString
                       else "accessToken=" +:+ url_QueryEscape token +:+ "&")
                  +:+ "appKey=" +:+ url_QueryEscape (AppKey c)
                  +:+ "&appSecret=" +:+ url_QueryEscape (AppSecret c))
                 ∅ None]) as Hlog1.
    { unfold goezviz_query.httpRPC. rewrite query_httpRequest_requests. do 2 f_equal.
      unfold goezviz_query.newRequest. rewrite Henv. simpl.
      f_equal. subst token. unfold url_Values_Set.
      destruct (decide (EzvizClient_AccessToken c = EmptyString)) as [Htoken|Htoken].
      - rewrite decide_False by tauto. by rewrite Encode_auth_values.
      - rewrite decide_True by done.
        assert (auth_values c !! "accessToken" = None) as ->.
        { unfold auth_values. by rewrite !lookup_insert_ne, lookup_empty by done. }
        rewrite decide_True by done.
        rewrite Encode_auth_values_token. by rewrite !str_app_assoc. }
    rewrite (proj2 (refresh_miss_requests c w e0 res0 w0 Hget)).
    by rewrite Hlog1, Hlog0.
Qed.

End variants.

(** ** A client on a fresh in-memory cache *)

Section fresh_cache.
#[local] Existing Instances map_Marshaler AccessTokenResponse_Marshaler
  AccessTokenResponse_Unmarshaler.

(** X22.  A cache made by [NewInMemoryCache] holds no record: under the
    reference decoder [Get] fails on its empty buffer with the error of the
    decoder, at any time and into any record, which it leaves untouched.  So
    the first [RefreshAccessToken] of a client on such a cache always sends
    one request to the endpoint. *)
Theorem fresh_InMemoryCache_misses (c : EzvizClient InMemoryCache)
    (d : AccessTokenResponse) (w : World) :
  InMemoryCache_Get NewInMemoryCache d w
  = ((Some (errors_New "unexpected end of JSON input"), d), w)
  ∧ (EzvizClient_Cache c = NewInMemoryCache →
     (∃ request,
        requests (goezviz.RefreshAccessToken c w).2 = requests w ++ [request])
     ∧ (∃ request,
          requests (goezviz_query.RefreshAccessToken c w).2 = requests w ++ [request])).
Proof.
  split; [done|]. intros Hfresh.
  assert (Cache_Get (EzvizClient_Cache c) zero_AccessTokenResponse w
          = ((Some (errors_New "unexpected end of JSON input"), zero_AccessTokenResponse), w))
    as Hget by (by rewrite Hfresh).
  destruct (refresh_miss_requests c w _ _ _ Hget) as [Hlog Hlog'].
  rewrite Hlog, Hlog'. split.
  - destruct (httpRPC_requests c "/lapp/token/get" None (Some (auth_params c))
                zero_AccessTokenResponse w) as [params' H].
    eauto.
  - destruct (query_httpRPC_requests (D := unit) c "/lapp/token/get"
                (Some (auth_values c)) None zero_AccessTokenResponse w) as [params' H].
    eauto.
Qed.

End fresh_cache.

(** ** The further properties on concrete inputs *)

Section more_examples.
#[local] Existing Instances map_Marshaler OAPIResponse_Marshaler OAPIResponse_Unmarshaler
  AccessTokenResponse_Marshaler AccessTokenResponse_Unmarshaler
  Unencodable_Marshaler Unencodable_Unmarshaler.

(** The signatures of the empty string and of [abc]. *)
Example sha1Sign_vectors :
  sha1Sign EmptyString = "da39a3ee5e6b4b0d3255bfef95601890afd80709"
  ∧ sha1Sign "abc" = "a9993e364706816aba3e25717850c26c9cd0d89d"
  ∧ sha1Sign "abcdbcdecdefdefgefghfghighijhijkijkljklmklmnlmnomnopnopq"
    = "84983e441c3bd26ebaae4aa1f95129e5e54670f1".
Proof. vm_compute. done. Qed.

(** A cache that holds text that is no JSON, long after any expiry. *)
Lemma garbage_in_cache :
  let w := world 9999999999 unreachable in
  json_Unmarshal "garbage" zero_AccessTokenResponse
  = (zero_AccessTokenResponse, Some encoding_json.SyntaxError)
  ∧ InMemoryCache_Get {| data := "garbage" |} zero_AccessTokenResponse w
    = ((Some encoding_json.SyntaxError, zero_AccessTokenResponse), w).
Proof.
  intros w.
  assert (json_Unmarshal "garbage" zero_AccessTokenResponse
          = (zero_AccessTokenResponse, Some encoding_json.SyntaxError)) as Hdecode
    by (vm_compute; reflexivity).
  split; [exact Hdecode|].
  exact (proj2 (Get_decode_error "garbage" zero_AccessTokenResponse
                  zero_AccessTokenResponse w _ Hdecode)).
Defined.

(** A record that cannot be encoded leaves the cache file as it was. *)
Lemma unencodable_record :
  let c := NewFileCache "deadline.json" in
  let w := set_files {[ "deadline.json" := "old" ]} (world 0 unreachable) in
  let e := errors_New "json: unsupported type: chan int" in
  json_Marshal (mk_Unencodable 5) = (EmptyString, Some e)
  ∧ FileCache_Set c (mk_Unencodable 5) w = (Some e, w)
  ∧ files w !! "deadline.json" = Some "old".
Proof.
  intros c w e.
  assert (json_Marshal (mk_Unencodable 5) = (EmptyString, Some e)) as Hencode
    by reflexivity.
  destruct (Set_encode_error EmptyString (mk_Unencodable 0) (mk_Unencodable 5) w e Hencode)
    as [Hfile _].
  split; [exact Hencode|]. split; [apply Hfile|reflexivity].
Defined.

(** Two records set one after the other: the second is served. *)
Lemma second_record_is_served :
  let w := world 0 unreachable in
  let c0 := NewInMemoryCache in
  let c1 := (InMemoryCache_Set c0 token_record w).1.2 in
  let c2 := (InMemoryCache_Set c1 newer_record w).1.2 in
  (1700000000 * 1000 < GetExpireTime newer_record)%Z
  ∧ InMemoryCache_Get c2 zero_AccessTokenResponse (set_unix_now 1700000000 w)
    = ((None, newer_record), set_unix_now 1700000000 w).
Proof.
  intros w c0 c1 c2.
  assert (1700000000 * 1000 < GetExpireTime newer_record)%Z as Hfuture
    by (vm_compute; reflexivity).
  split; [exact Hfuture|].
  assert (json_Marshal token_record = (token_document, None)) as Hencode1
    by (vm_compute; reflexivity).
  assert (json_Marshal newer_record = ((json_Marshal newer_record).1, None)) as Hencode2
    by (vm_compute; reflexivity).
  assert (json_Unmarshal (json_Marshal newer_record).1 zero_AccessTokenResponse
          = (newer_record, None)) as Hdecode by (vm_compute; reflexivity).
  apply (proj1 (Set_overwrites token_document (json_Marshal newer_record).1
                  zero_AccessTokenResponse token_record newer_record w 1700000000
                  Hencode1 Hencode2 Hdecode Hfuture)).
Defined.

(** Expired at one second, expired at the next. *)
Lemma expired_then_expired :
  let c := {| data := token_document |} in
  let w := world 0 unreachable in
  (InMemoryCache_Get c zero_AccessTokenResponse (set_unix_now 2000000000 w)).1.1
  = Some err_expired
  ∧ InMemoryCache_Get c zero_AccessTokenResponse (set_unix_now 2000000001 w)
    = ((Some err_expired, token_record), set_unix_now 2000000001 w).
Proof.
  intros c w.
  assert ((InMemoryCache_Get c zero_AccessTokenResponse (set_unix_now 2000000000 w)).1.1
          = Some err_expired) as Hexpired by (vm_compute; reflexivity).
  split; [exact Hexpired|].
  assert (json_Unmarshal token_document zero_AccessTokenResponse = (token_record, None))
    as Hdecode by (vm_compute; reflexivity).
  assert (2000000000 <= 2000000001)%Z as Hlater by lia.
  apply (proj2 (Get_expired_forever token_document zero_AccessTokenResponse token_record
                  w 2000000000 2000000001 Hdecode Hlater)).
  exact Hexpired.
Defined.

(** The token record, which expires at 1999999999000 ms, at the second
    1999999999: served. *)
Lemma served_in_the_last_second :
  let w := world 1999999999 unreachable in
  (unix_now w * 1000 <= GetExpireTime token_record)%Z
  ∧ InMemoryCache_Get {| data := token_document |} zero_AccessTokenResponse w
    = ((None, token_record), w).
Proof.
  intros w.
  assert (json_Unmarshal token_document zero_AccessTokenResponse = (token_record, None))
    as Hdecode by (vm_compute; reflexivity).
  destruct (Get_bounds_in_milliseconds token_document zero_AccessTokenResponse
              token_record w Hdecode) as (_ & Hserved & _).
  assert (unix_now w * 1000 <= GetExpireTime token_record)%Z as Hle
    by (vm_compute; discriminate).
  split; [exact Hle|]. apply Hserved. exact Hle.
Defined.

(** Two cache files. *)
Lemma two_cache_files :
  let c1 := NewFileCache "ezviz_A.auth_file" in
  let c2 := NewFileCache "ezviz_B.auth_file" in
  let w := set_files {[ "ezviz_B.auth_file" := token_document ]} (world 0 unreachable) in
  Path c1 ≠ Path c2
  ∧ (FileCache_Get c2 zero_AccessTokenResponse (FileCache_Set c1 newer_record w).2).1
    = (None, token_record).
Proof.
  intros c1 c2 w.
  assert (Path c1 ≠ Path c2) as Hpath by discriminate.
  split; [exact Hpath|].
  rewrite (FileCache_isolation zero_AccessTokenResponse zero_AccessTokenResponse
             newer_record w c1 c2 Hpath).
  vm_compute. reflexivity.
Defined.

(** The connection is refused. *)
Lemma transport_error_example :
  let c := NewEzvizClient "K" "S" in
  let w := world 0 unreachable in
  let requestData : option (gmap string string) := None in
  goezviz.httpRequest c "/lapp/device/list" None requestData zero_OAPIResponse w
  = (Ret (Some (errors_New "dial tcp: connection refused"), zero_OAPIResponse),
     sent (goezviz.newRequest "/lapp/device/list" None requestData w) w).
Proof.
  intros c w requestData.
  apply (proj1 (httpRequest_transport_error c "/lapp/device/list" None requestData
                  zero_OAPIResponse w no_response _)).
  reflexivity.
Defined.

(** The connection breaks while the body, which reports the code 400, is
    read: the call returns no error. *)
Lemma broken_body_example :
  let c := NewEzvizClient "K" "S" in
  let body := mk_Body ("{" +:+ quoted "code" +:+ ":" +:+ quoted "400")
                (Some (errors_New "unexpected EOF")) in
  let resp := mk_Response 200 "200 OK" json_header body in
  let w := world 0 (resp, None) in
  let requestData : option (gmap string string) := None in
  goezviz.httpRequest c "/lapp/device/list" None requestData zero_OAPIResponse w
  = (Ret (None, zero_OAPIResponse),
     sent (goezviz.newRequest "/lapp/device/list" None requestData w) w).
Proof.
  intros c body resp w requestData.
  apply (proj1 (httpRequest_read_error_lost c "/lapp/device/list" None requestData
                  zero_OAPIResponse w resp (errors_New "unexpected EOF")
                  eq_refl eq_refl eq_refl)).
  reflexivity.
Defined.

(** A client fetches the token; another client with the same key and
    another secret finds it in the cache and sends nothing. *)
Lemma token_shared_by_key :
  let c := NewEzvizClient "K" "S" in
  let c' := NewEzvizClient "K" "another secret" in
  let w := world 1700000000 (ok_response json_header token_document) in
  let w2 := (goezviz.RefreshAccessToken c w).2 in
  (goezviz.RefreshAccessToken c w).1 = Ret (None, set_AccessToken "TOK" c)
  ∧ goezviz.RefreshAccessToken c' (set_unix_now 1800000000 w2)
    = (Ret (None, set_AccessToken "TOK" c'), set_unix_now 1800000000 w2).
Proof.
  intros c c' w w2.
  pose (e0 := errors_New "open ezviz_K.auth_file: no such file or directory").
  pose (rpc := goezviz.httpRPC c "/lapp/token/get" None (Some (auth_params c))
                 zero_AccessTokenResponse w).
  destruct (refreshed_token_is_cached c c' w e0 zero_AccessTokenResponse token_record
              rpc.2 token_document 1800000000)
    as (w2' & Hfirst & Hsecond & _).
  - vm_compute. reflexivity.
  - vm_compute. reflexivity.
  - apply not_elem_of_empty.
  - vm_compute. reflexivity.
  - vm_compute. reflexivity.
  - vm_compute. reflexivity.
  - reflexivity.
  - subst w2. rewrite Hfirst. simpl. split; [reflexivity|exact Hsecond].
Defined.

(** An expired record in the cache and an answer that is the empty object:
    the refresh returns no error and the client holds the expired token. *)
Lemma stale_token_example :
  let c := NewEzvizClient "K" "S" in
  let w := set_files {[ "ezviz_K.auth_file" := token_document ]}
             (world 2100000000 (ok_response json_header "{}")) in
  (Cache_Get (EzvizClient_Cache c) zero_AccessTokenResponse w).1
  = (Some err_expired, token_record)
  ∧ (goezviz.RefreshAccessToken c w).1 = Ret (None, set_AccessToken "TOK" c).
Proof.
  intros c w.
  assert (Cache_Get (EzvizClient_Cache c) zero_AccessTokenResponse w
          = ((Some err_expired, token_record), w)) as Hget by (vm_compute; reflexivity).
  split; [by rewrite Hget|].
  pose proof (refresh_decodes_into_cached_record c w err_expired token_record w
                (ok_response json_header "{}").1 Hget eq_refl eq_refl eq_refl eq_refl)
    as Hrun.
  cbv zeta in Hrun.
  rewrite decide_True in Hrun by (vm_compute; reflexivity).
  rewrite Hrun. vm_compute. reflexivity.
Defined.

(** The endpoint answers with a page of HTML. *)
Lemma refresh_html_example :
  let c := NewEzvizClient "K" "S" in
  let w := world 0 (ok_response html_header "<html>") in
  (goezviz.RefreshAccessToken c w).1 = Panic nil_dereference.
Proof.
  intros c w.
  pose (e0 := errors_New "open ezviz_K.auth_file: no such file or directory").
  assert (Cache_Get (EzvizClient_Cache c) zero_AccessTokenResponse w
          = ((Some e0, zero_AccessTokenResponse), w)) as Hget by (vm_compute; reflexivity).
  assert (content (RespBody (ok_response html_header "<html>").1) ≠ EmptyString)
    as Hbody by discriminate.
  rewrite (refresh_panics_on_stream_answer c w e0 zero_AccessTokenResponse w
             (ok_response html_header "<html>").1 Hget eq_refl eq_refl eq_refl Hbody).
  reflexivity.
Defined.

(** One answer for every request: the two variants return the same. *)
Lemma same_answer_example :
  let c := NewEzvizClient "K" "S" in
  let w := world 0 (ok_response json_header token_document) in
  let requestData := Some (auth_params c) in
  (goezviz.httpRequest c "/lapp/token/get" None requestData zero_AccessTokenResponse w).1
  = (goezviz_query.httpRequest c "/lapp/token/get" None requestData
       zero_AccessTokenResponse w).1.
Proof.
  intros c w requestData.
  assert (network w (goezviz.newRequest "/lapp/token/get" None requestData w)
          = network w (goezviz_query.newRequest "/lapp/token/get" None w)) as Hnet
    by reflexivity.
  exact (proj1 (proj2 (httpRequest_variants_agree c "/lapp/token/get" None requestData
                         zero_AccessTokenResponse w Hnet))).
Defined.

(** A key with a space and a secret with an ampersand, in the query string
    of the second variant. *)
Lemma secret_in_query_example :
  let c := NewEzvizClient "my key" "s&cret" in
  let w := world 0 unreachable in
  os_Getenv "oapi_server" w = EmptyString
  ∧ requests (goezviz_query.RefreshAccessToken c w).2
    = [mk_Request "POST"
         "https://open.ys7.com/api//lapp/token/get?appKey=my+key&appSecret=s%26cret"
         ∅ None].
Proof.
  intros c w.
  pose (e0 := errors_New "open ezviz_my key.auth_file: no such file or directory").
  assert (Cache_Get (EzvizClient_Cache c) zero_AccessTokenResponse w
          = ((Some e0, zero_AccessTokenResponse), w)) as Hget by (vm_compute; reflexivity).
  assert (os_Getenv "oapi_server" w = EmptyString) as Henv by reflexivity.
  split; [exact Henv|].
  rewrite (proj2 (auth_request_on_the_wire c w e0 zero_AccessTokenResponse w Hget Henv)).
  vm_compute. reflexivity.
Defined.

End more_examples.
